(** * LIFE/JDE data cleaning tool: the rule engine of [streamlit_app.py]

    A shallow embedding of the processing block of [streamlit_app.py]
    (column normalisation, column selection, the seven rules, the status
    join and the spreadsheet export), with the properties of its
    specification stated and proved over it.

    Conventions of the model.
    - A Python [str] is the list of its code points ([pystr]).
    - A spreadsheet cell is a dynamically typed scalar ([cell]).  Numbers are
      integers: every numeric constant the rules compare with (565.0, 999.0,
      980, 984, 989, the unit step 1) is a whole number, and a float cell
      holding a whole number behaves like that integer in every comparison.
    - A DataFrame is its ordered column labels and its ordered rows
      ([frame]); dtypes are not modelled, a text column is an object column.
    - Python exceptions are values of [result].
    - What belongs to the Python runtime and not to the program (the Unicode
      tables behind [\d], [str.strip] and [str.lower], the date parser, the
      text form of a timestamp, the unstable default sort of
      [sort_values]) is a field of [runtime]; the ASCII part of these
      tables is fixed and is computed.  What a proof needs to know of the
      runtime is stated in [lower_laws] and [sort_laws]. *)

From Stdlib Require Import List ZArith NArith Bool Lia Ascii String
  Permutation Sorted.
Import ListNotations.

Set Implicit Arguments.
Local Open Scope N_scope.

(** ** Python strings *)

Definition pystr := list N.

(** A literal of the source whose characters are all ASCII. *)
Definition lit (s : string) : pystr :=
  List.map N_of_ascii (list_ascii_of_string s).

Fixpoint pystr_eqb (a b : pystr) : bool :=
  match a, b with
  | [], [] => true
  | x :: a', y :: b' => (x =? y) && pystr_eqb a' b'
  | _, _ => false
  end.

(** [prefix in s] at the head of [s]. *)
Fixpoint starts_with (p s : pystr) : bool :=
  match p, s with
  | [], _ => true
  | x :: p', y :: s' => (x =? y) && starts_with p' s'
  | _ :: _, [] => false
  end.

(** The [in] operator on strings: [p in s]. *)
Fixpoint str_in (p s : pystr) : bool :=
  starts_with p s ||
  match s with
  | [] => false
  | _ :: s' => str_in p s'
  end.

(** [s.split(sep)] for a one-character separator. *)
Fixpoint split (sep : N) (s : pystr) : list pystr :=
  match s with
  | [] => [[]]
  | c :: t =>
      if c =? sep then [] :: split sep t
      else match split sep t with
           | [] => [[c]]
           | p :: ps => (c :: p) :: ps
           end
  end.

(** Decimal digits of [str(int)]. *)
Fixpoint uint_str (d : Decimal.uint) : pystr :=
  match d with
  | Decimal.Nil => []
  | Decimal.D0 d => 48 :: uint_str d
  | Decimal.D1 d => 49 :: uint_str d
  | Decimal.D2 d => 50 :: uint_str d
  | Decimal.D3 d => 51 :: uint_str d
  | Decimal.D4 d => 52 :: uint_str d
  | Decimal.D5 d => 53 :: uint_str d
  | Decimal.D6 d => 54 :: uint_str d
  | Decimal.D7 d => 55 :: uint_str d
  | Decimal.D8 d => 56 :: uint_str d
  | Decimal.D9 d => 57 :: uint_str d
  end.

Definition int_str (z : Z) : pystr :=
  match Z.to_int z with
  | Decimal.Pos d => uint_str d
  | Decimal.Neg d => 45 :: uint_str d
  end.

(** ASCII part of the character classes; it is the same in every Unicode
    version. *)
Definition is_ascii (c : N) : bool := c <? 128.

Definition ascii_digit (c : N) : bool := (48 <=? c) && (c <=? 57).

Definition ascii_space (c : N) : bool :=
  ((9 <=? c) && (c <=? 13)) || ((28 <=? c) && (c <=? 32)).

Definition ascii_lower (c : N) : N :=
  if (65 <=? c) && (c <=? 90) then c + 32 else c.

(** ** Exceptions *)

Inductive pyexn : Set :=
| KeyError | TypeError | AttributeError | IndexError | ValueError.

Inductive result (A : Type) : Type :=
| Ok (a : A)
| Raise (e : pyexn).
Arguments Ok {A} a.
Arguments Raise {A} e.

Definition bind {A B} (m : result A) (k : A -> result B) : result B :=
  match m with
  | Ok a => k a
  | Raise e => Raise e
  end.

Notation "x <- m ;; k" := (bind m (fun x => k))
  (at level 61, m at next level, right associativity).

Definition pyexn_eqb (a b : pyexn) : bool :=
  match a, b with
  | KeyError, KeyError | TypeError, TypeError
  | AttributeError, AttributeError | IndexError, IndexError
  | ValueError, ValueError => true
  | _, _ => false
  end.

(** [try: body  except (caught): handler]. *)
Definition try_except {A} (body : result A) (caught : list pyexn)
    (handler : result A) : result A :=
  match body with
  | Ok a => Ok a
  | Raise e => if existsb (pyexn_eqb e) caught then handler else Raise e
  end.

Fixpoint mapM {A B} (f : A -> result B) (l : list A) : result (list B) :=
  match l with
  | [] => Ok []
  | a :: l' => b <- f a ;; bs <- mapM f l' ;; Ok (b :: bs)
  end.

(** [seq[i]] on a list. *)
Definition subscript {A} (l : list A) (i : nat) : result A :=
  match nth_error l i with
  | Some a => Ok a
  | None => Raise IndexError
  end.

(** ** Cells *)

Inductive cell : Type :=
| NaN                  (* missing value: NaN, None, NaT *)
| Str (s : pystr)
| Int (z : Z)
| Boolean (b : bool)
| Date (t : Z).        (* a Timestamp, as its distance to the epoch *)

(** [pd.isna] on a scalar. *)
Definition isna (c : cell) : bool :=
  match c with NaN => true | _ => false end.

(** ** What the Python runtime provides *)

Record runtime : Type := Runtime {
  (* category Nd beyond ASCII, used by [\d] *)
  uni_digit : N -> bool;
  (* White_Space beyond ASCII, used by [str.strip] *)
  uni_space : N -> bool;
  (* [str.lower] on a string that is not pure ASCII *)
  uni_lower : pystr -> pystr;
  (* the date parser behind [pd.to_datetime] *)
  parse_datetime : pystr -> option Z;
  (* [str(Timestamp)] *)
  timestamp_str : Z -> pystr;
  (* the default (quicksort) [sort_values]: rows ordered by a key,
     missing keys last *)
  sort_values : (list cell -> option Z) -> list (list cell) -> list (list cell)
}.

Section Program.

Variable rt : runtime.

Definition is_digit (c : N) : bool :=
  if is_ascii c then ascii_digit c else uni_digit rt c.

Definition is_space (c : N) : bool :=
  if is_ascii c then ascii_space c else uni_space rt c.

(** [str(x)] of a cell. *)
Definition py_str (c : cell) : pystr :=
  match c with
  | NaN => lit "nan"
  | Str s => s
  | Int z => int_str z
  | Boolean true => lit "True"
  | Boolean false => lit "False"
  | Date t => timestamp_str rt t
  end.

(** ** Regular expressions

    The fragment of [re] the program uses: literals, a character set, [\d],
    the anchors, concatenation, alternation and bounded repetition.  A
    matcher state is the flag "at position 0" and the text still to read. *)

Inductive regex : Type :=
| Eps
| Chr (c : N)
| OneOf (cs : list N)
| Digit
| Bol
| Eol
| Cat (r1 r2 : regex)
| Alt (r1 r2 : regex)
| Times (n : nat) (r : regex).

Definition mstate : Type := (bool * pystr)%type.

Fixpoint iterate (n : nat) (f : mstate -> list mstate) (st : mstate)
    : list mstate :=
  match n with
  | O => [st]
  | S n' => flat_map (iterate n' f) (f st)
  end.

Definition step_if (p : N -> bool) (st : mstate) : list mstate :=
  match snd st with
  | c :: t => if p c then [(false, t)] else []
  | [] => []
  end.

Definition at_end (st : mstate) : bool :=
  match snd st with [] => true | _ => false end.

(** [$] holds at the end of the text and before a final newline. *)
Fixpoint run (r : regex) (st : mstate) : list mstate :=
  match r with
  | Eps => [st]
  | Chr c => step_if (N.eqb c) st
  | OneOf cs => step_if (fun x => existsb (N.eqb x) cs) st
  | Digit => step_if is_digit st
  | Bol => if fst st then [st] else []
  | Eol => if at_end st || pystr_eqb (snd st) [10] then [st] else []
  | Cat r1 r2 => flat_map (run r2) (run r1 st)
  | Alt r1 r2 => run r1 st ++ run r2 st
  | Times n r' => iterate n (run r') st
  end.

(** [re.fullmatch(r, s)] as a truth value. *)
Definition re_fullmatch (r : regex) (s : pystr) : bool :=
  existsb at_end (run r (true, s)).

Definition matches_at (r : regex) (st : mstate) : bool :=
  match run r st with [] => false | _ => true end.

Fixpoint search_from (r : regex) (start : bool) (s : pystr) : bool :=
  matches_at r (start, s) ||
  match s with
  | [] => false
  | _ :: s' => search_from r false s'
  end.

(** [re.search(r, s)] as a truth value. *)
Definition re_search (r : regex) (s : pystr) : bool := search_from r true s.

(** The regex of a literal word. *)
Fixpoint word (w : pystr) : regex :=
  match w with
  | [] => Eps
  | c :: w' => Cat (Chr c) (word w')
  end.

(** [w1|w2|...]. *)
Fixpoint alternation (ws : list pystr) : regex :=
  match ws with
  | [] => Eps
  | [w] => word w
  | w :: ws' => Alt (word w) (alternation ws')
  end.

(** ** The BL validator (source lines 146-156) *)

(** [r'^[347]\d{5}$'] *)
Definition bl_pattern : regex :=
  Cat Bol (Cat (OneOf (lit "347")) (Cat (Times 5 Digit) Eol)).

Definition validate_bl_number (bl_number : cell) : result bool :=
  if isna bl_number then Ok false
  else
    let parts := split 45 (py_str bl_number) in
    if negb (Nat.eqb (List.length parts) 2) then Ok false
    else
      try_except
        (number_part <- subscript parts 1 ;;
         Ok (re_fullmatch bl_pattern number_part))
        [AttributeError; TypeError]
        (Ok false).

(** ** Column names: [strip] and [lower] *)

Fixpoint drop_while (p : N -> bool) (s : pystr) : pystr :=
  match s with
  | [] => []
  | c :: t => if p c then drop_while p t else s
  end.

Definition str_lstrip (s : pystr) : pystr := drop_while is_space s.
Definition str_rstrip (s : pystr) : pystr := rev (drop_while is_space (rev s)).

(** [s.strip()] *)
Definition str_strip (s : pystr) : pystr := str_rstrip (str_lstrip s).

(** [s.lower()]: on a pure ASCII string only A-Z change. *)
Definition str_lower (s : pystr) : pystr :=
  if forallb is_ascii s then List.map ascii_lower s else uni_lower rt s.

(** ** Frames *)

Record frame : Type := Frame {
  columns : list pystr;
  rows : list (list cell)
}.

(** A Python dict with string keys and values, in insertion order. *)
Definition dict : Type := list (pystr * pystr).

Fixpoint dict_get (d : dict) (k : pystr) : option pystr :=
  match d with
  | [] => None
  | (k', v) :: d' => if pystr_eqb k' k then Some v else dict_get d' k
  end.

(** [d[k] = v] *)
Fixpoint dict_set (d : dict) (k v : pystr) : dict :=
  match d with
  | [] => [(k, v)]
  | (k', v') :: d' =>
      if pystr_eqb k' k then (k', v) :: d' else (k', v') :: dict_set d' k v
  end.

(** [df.rename(columns=d)]: a label that is no key of [d] is kept. *)
Definition rename (df : frame) (d : dict) : frame :=
  Frame
    (List.map (fun c => match dict_get d c with Some v => v | None => c end)
       (columns df))
    (rows df).

(** The loop [for col in df.columns: ...; new_columns[col] = new_col]. *)
Definition new_columns (body : pystr -> pystr) (cols : list pystr) : dict :=
  fold_left (fun d col => dict_set d col (body col)) cols [].

(** Loop body for LOR518 (source lines 76-80). *)
Definition new_col_life (col : pystr) : pystr :=
  let new_col := str_lower (str_strip col) in
  let new_col :=
    if str_in (lit "unnamed: 6") new_col then lit "vendor" else new_col in
  let new_col :=
    if str_in (lit "unnamed: 8") new_col then lit "customer name"
    else new_col in
  new_col.

(** Loop body for LOR850 (source lines 87-91). *)
Definition new_col_lor850 (col : pystr) : pystr :=
  let new_col := str_lower (str_strip col) in
  let new_col :=
    if str_in (lit "unnamed: 5") new_col then lit "customer" else new_col in
  let new_col :=
    if str_in (lit "unnamed: 8") new_col then lit "produit" else new_col in
  new_col.

(** Loop body for the JDE file (source line 98). *)
Definition new_col_jde (col : pystr) : pystr := str_lower (str_strip col).

Definition normalize_life (data_life : frame) : frame :=
  rename data_life (new_columns new_col_life (columns data_life)).

Definition normalize_lor850 (lor850 : frame) : frame :=
  rename lor850 (new_columns new_col_lor850 (columns lor850)).

Definition normalize_jde (data_jde : frame) : frame :=
  rename data_jde (new_columns new_col_jde (columns data_jde)).

(** ** Reading and writing columns *)

Fixpoint position (name : pystr) (cols : list pystr) : option nat :=
  match cols with
  | [] => None
  | c :: cols' =>
      if pystr_eqb c name then Some O
      else match position name cols' with
           | Some i => Some (S i)
           | None => None
           end
  end.

Definition locate (df : frame) (name : pystr) : result nat :=
  match position name (columns df) with
  | Some i => Ok i
  | None => Raise KeyError
  end.

Definition cell_at (i : nat) (r : list cell) : cell := nth i r NaN.

Definition column_at (i : nat) (rs : list (list cell)) : list cell :=
  List.map (cell_at i) rs.

(** [df[name]]; labels read this way are distinct in every frame the rules
    build. *)
Definition getitem (df : frame) (name : pystr) : result (list cell) :=
  i <- locate df name ;; Ok (column_at i (rows df)).

(** [df[[name1, ...]]] *)
Definition select (df : frame) (names : list pystr) : result frame :=
  idx <- mapM (locate df) names ;;
  Ok (Frame names
        (List.map (fun r => List.map (fun i => cell_at i r) idx) (rows df))).

Fixpoint mask_rows (mask : list bool) (rs : list (list cell))
    : list (list cell) :=
  match mask, rs with
  | b :: mask', r :: rs' =>
      if b then r :: mask_rows mask' rs' else mask_rows mask' rs'
  | _, _ => []
  end.

(** [df[mask]] for a boolean Series: a new frame. *)
Definition loc (df : frame) (mask : list bool) : frame :=
  Frame (columns df) (mask_rows mask (rows df)).

Fixpoint replace_at (i : nat) (v : cell) (r : list cell) : list cell :=
  match i, r with
  | O, _ :: r' => v :: r'
  | S i', c :: r' => c :: replace_at i' v r'
  | _, [] => []
  end.

Fixpoint zip_with {A B C} (f : A -> B -> C) (l : list A) (l' : list B)
    : list C :=
  match l, l' with
  | a :: l, b :: l' => f a b :: zip_with f l l'
  | _, _ => []
  end.

(** [df[name] = values]: overwrite the column, or append it when the label
    is new. *)
Definition setitem (df : frame) (name : pystr) (values : list cell) : frame :=
  match position name (columns df) with
  | Some i => Frame (columns df) (zip_with (replace_at i) values (rows df))
  | None =>
      Frame (columns df ++ [name])
        (zip_with (fun v r => r ++ [v]) values (rows df))
  end.

(** ** Series operations *)

(** [a == b] between scalars; a bool is the integer 0 or 1. *)
Definition py_eq (a b : cell) : bool :=
  match a, b with
  | Str x, Str y => pystr_eqb x y
  | Int x, Int y => Z.eqb x y
  | Int x, Boolean y => Z.eqb x (if y then 1 else 0)
  | Boolean x, Int y => Z.eqb (if x then 1 else 0) y
  | Boolean x, Boolean y => Bool.eqb x y
  | Date x, Date y => Z.eqb x y
  | _, _ => false
  end.

(** [series == v] and [series != v] *)
Definition series_eq (s : list cell) (v : cell) : list bool :=
  List.map (fun c => py_eq c v) s.
Definition series_ne (s : list cell) (v : cell) : list bool :=
  List.map (fun c => negb (py_eq c v)) s.

(** [series.isin(values)] *)
Definition isin (s : list cell) (values : list cell) : list bool :=
  List.map (fun c => existsb (py_eq c) values) s.

(** [series.str.contains(pat, na=False)] *)
Definition str_contains (s : list cell) (pat : regex) : list bool :=
  List.map (fun c => match c with
                     | Str x => re_search pat x
                     | _ => false
                     end) s.

(** [m1 & m2] and [~m] *)
Definition mask_and (m1 m2 : list bool) : list bool := zip_with andb m1 m2.
Definition mask_not (m : list bool) : list bool := List.map negb m.

(** [pd.to_datetime] on one value. *)
Definition to_datetime (c : cell) : result cell :=
  match c with
  | NaN => Ok NaN
  | Date t => Ok (Date t)
  | Int z => Ok (Date z)
  | Str s => match parse_datetime rt s with
             | Some t => Ok (Date t)
             | None => Raise ValueError
             end
  | Boolean _ => Raise TypeError
  end.

(** The sort key of a cell of a numeric or datetime column. *)
Definition sort_key (c : cell) : result (option Z) :=
  match c with
  | NaN => Ok None
  | Int z => Ok (Some z)
  | Date t => Ok (Some t)
  | _ => Raise TypeError
  end.

Definition key_of (i : nat) (r : list cell) : option Z :=
  match cell_at i r with
  | Int z => Some z
  | Date t => Some t
  | _ => None
  end.

(** [df.sort_values(by=name)] *)
Definition sort_frame (df : frame) (name : pystr) : result frame :=
  i <- locate df name ;;
  _ <- mapM sort_key (column_at i (rows df)) ;;
  Ok (Frame (columns df) (sort_values rt (key_of i) (rows df))).

(** [a - b] between cells of a numeric column. *)
Definition cell_sub (a b : cell) : result cell :=
  match a, b with
  | Int x, Int y => Ok (Int (x - y))
  | NaN, Int _ | Int _, NaN | NaN, NaN => Ok NaN
  | _, _ => Raise TypeError
  end.

Fixpoint diff_from (prev : cell) (s : list cell) : result (list cell) :=
  match s with
  | [] => Ok []
  | c :: s' =>
      d <- cell_sub c prev ;; ds <- diff_from c s' ;; Ok (d :: ds)
  end.

(** [series.diff()] *)
Definition series_diff (s : list cell) : result (list cell) :=
  match s with
  | [] => Ok []
  | c :: s' => _ <- cell_sub c c ;; ds <- diff_from c s' ;; Ok (NaN :: ds)
  end.

(** [series.fillna(v)] *)
Definition fillna (v : cell) (s : list cell) : list cell :=
  List.map (fun c => if isna c then v else c) s.

(** ** Column selection (source lines 103-113) *)

Definition n_exped : pystr := lit "n" ++ [176] ++ lit " exp" ++ [233] ++ lit "d.".
Definition n_comm : pystr := lit "n" ++ [186] ++ lit " comm.".

Definition data_life_columns : list pystr :=
  [lit "ticket date"; lit "plant"; lit "ticket#"; lit "customer";
   lit "vendor"; lit "ship to"; lit "customer name"; lit "prod desc";
   lit "delv"; lit "truck"; lit "hired"; lit "shipment"; lit "load"].

Definition data_jde_columns : list pystr :=
  [n_exped; lit "magasin/usine"; lit "t c"; lit "dernier statut";
   lit "statut suivant"; lit "date comm."; n_comm; lit "description 1"].

Definition lor850_keep : list pystr :=
  [lit "plant"; lit "receipt date"; lit "customer"; lit "produit";
   lit "qty"; lit "external ticket/bol"; lit "carrier id";
   lit "carrier name"; lit "driver name"; lit "reference no"; lit "user"].

(** ** The rules (source lines 116-159) *)

(** Line 116. *)
Definition prechargement (data_life : frame) : result frame :=
  vendor <- getitem data_life (lit "vendor") ;;
  Ok (loc data_life (str_contains vendor (word (lit "PRECHARGEMENT")))).

(** Lines 119-120: the ticket dates become timestamps and the table is
    sorted by them. *)
Definition sort_by_ticket_date (data_life : frame) : result frame :=
  dates <- getitem data_life (lit "ticket date") ;;
  stamps <- mapM to_datetime dates ;;
  sort_frame (setitem data_life (lit "ticket date") stamps)
    (lit "ticket date").

(** Lines 121-122. *)
Definition plant_data (data_life : frame) : result frame :=
  projection <- select data_life [lit "plant"; lit "ticket#"; lit "delv"] ;;
  sorted <- sort_frame projection (lit "ticket#") ;;
  ticket <- getitem sorted (lit "ticket#") ;;
  delta <- series_diff ticket ;;
  Ok (setitem sorted (lit "difference") (fillna (Int 0) delta)).

(** Line 123. *)
Definition saut_bl (plant_data : frame) : result frame :=
  difference <- getitem plant_data (lit "difference") ;;
  Ok (loc plant_data (series_ne difference (Int 1))).

(** Line 126. *)
Definition faulty_pickup (data_life : frame) : result frame :=
  hired <- getitem data_life (lit "hired") ;;
  delv <- getitem data_life (lit "delv") ;;
  Ok (loc data_life
        (mask_and (series_ne hired (Str (lit "TMP")))
                  (series_eq delv (Str (lit "N"))))).

(** Lines 129-132. *)
Definition data_jde_filtered (data_jde : frame) : result frame :=
  t_c <- getitem data_jde (lit "t c") ;;
  dernier <- getitem data_jde (lit "dernier statut") ;;
  Ok (loc data_jde
        (mask_and (isin t_c [Str (lit "SO"); Str (lit "ST")])
                  (mask_not (isin dernier [Int 980; Int 984; Int 989])))).

(** Join keys of [merge]: missing values match each other. *)
Definition key_eq (a b : cell) : bool :=
  match a, b with
  | NaN, NaN => true
  | _, _ => py_eq a b
  end.

(** Labels present on both sides get the suffixes [_x] and [_y]. *)
Definition suffixed (other : list pystr) (suffix : pystr) (c : pystr)
    : pystr :=
  if existsb (pystr_eqb c) other then c ++ suffix else c.

(** [left.merge(right, left_on=.., right_on=.., how='left')]: the rows of
    [left] in their order, each with every matching row of [right] in the
    order of [right], or with missing values when none matches. *)
Definition merge_left (left right : frame) (left_on right_on : pystr)
    : result frame :=
  lk <- locate left left_on ;;
  rk <- locate right right_on ;;
  Ok (Frame
        (List.map (suffixed (columns right) (lit "_x")) (columns left) ++
         List.map (suffixed (columns left) (lit "_y")) (columns right))
        (flat_map
           (fun l =>
              match filter (fun r => key_eq (cell_at lk l) (cell_at rk r))
                      (rows right) with
              | [] => [l ++ List.map (fun _ => NaN) (columns right)]
              | found => List.map (fun r => l ++ r) found
              end)
           (rows left))).

(** Lines 134-135. *)
Definition merged_data (data_life data_jde_filtered : frame) : result frame :=
  right <- select data_jde_filtered [n_exped; lit "statut suivant"] ;;
  merge_left data_life right (lit "shipment") n_exped.

(** Line 136. *)
Definition merged_data_filtered (merged_data : frame) : result frame :=
  suivant <- getitem merged_data (lit "statut suivant") ;;
  Ok (loc merged_data (series_ne suivant (Int 999))).

(** Line 137. *)
Definition staut_suivant_565 (merged_data : frame) : result frame :=
  suivant <- getitem merged_data (lit "statut suivant") ;;
  Ok (loc merged_data (series_eq suivant (Int 565))).

(** Line 140. *)
Definition trans_tmp (data_life : frame) : result frame :=
  hired <- getitem data_life (lit "hired") ;;
  delv <- getitem data_life (lit "delv") ;;
  Ok (loc data_life
        (mask_and (series_eq hired (Str (lit "TMP")))
                  (series_eq delv (Str (lit "Y"))))).

(** ['POUZZOLANE|PETCOKE|GYPSE|CLINKER|CALCAIRE|SABLE'] *)
Definition trans_fic_materials : list pystr :=
  [lit "POUZZOLANE"; lit "PETCOKE"; lit "GYPSE"; lit "CLINKER";
   lit "CALCAIRE"; lit "SABLE"].

(** ['PETCOKE|GYPSE|CLINKER'] *)
Definition faux_bl_materials : list pystr :=
  [lit "PETCOKE"; lit "GYPSE"; lit "CLINKER"].

(** Lines 142-143. *)
Definition trans_fic (lor850 : frame) : result frame :=
  produit <- getitem lor850 (lit "produit") ;;
  carrier <- getitem lor850 (lit "carrier name") ;;
  Ok (loc lor850
        (mask_and (str_contains produit (alternation trans_fic_materials))
                  (series_eq carrier (Str (lit "Transpoteur Fictif"))))).

(** Line 158: the assignment [lor850['valid bl'] = ...], as the frame
    [lor850] is bound to afterwards. *)
Definition set_valid_bl (lor850 : frame) : result frame :=
  bol <- getitem lor850 (lit "external ticket/bol") ;;
  valid <- mapM validate_bl_number bol ;;
  Ok (setitem lor850 (lit "valid bl") (List.map Boolean valid)).

(** Line 159. *)
Definition faux_bl (lor850 : frame) : result frame :=
  produit <- getitem lor850 (lit "produit") ;;
  valid <- getitem lor850 (lit "valid bl") ;;
  Ok (loc lor850
        (mask_and (str_contains produit (alternation faux_bl_materials))
                  (series_eq valid (Boolean false)))).

(** ** The run (source lines 72-159) *)

Record tables : Type := Tables {
  out_prechargement : frame;
  out_saut_bl : frame;
  out_faulty_pickup : frame;
  out_merged_data : frame;
  out_merged_data_filtered : frame;
  out_staut_suivant_565 : frame;
  out_trans_tmp : frame;
  out_trans_fic : frame;
  out_lor850 : frame;
  out_faux_bl : frame
}.

Definition process (lor518 lor850_raw jde : frame) : result tables :=
  let data_life := normalize_life lor518 in
  let lor850 := normalize_lor850 lor850_raw in
  let data_jde := normalize_jde jde in
  data_life <- select data_life data_life_columns ;;
  data_jde <- select data_jde data_jde_columns ;;
  lor850 <- select lor850 lor850_keep ;;
  t_prechargement <- prechargement data_life ;;
  data_life <- sort_by_ticket_date data_life ;;
  t_plant_data <- plant_data data_life ;;
  t_saut_bl <- saut_bl t_plant_data ;;
  t_faulty_pickup <- faulty_pickup data_life ;;
  t_jde_filtered <- data_jde_filtered data_jde ;;
  t_merged_data <- merged_data data_life t_jde_filtered ;;
  t_merged_data_filtered <- merged_data_filtered t_merged_data ;;
  t_565 <- staut_suivant_565 t_merged_data ;;
  t_trans_tmp <- trans_tmp data_life ;;
  t_trans_fic <- trans_fic lor850 ;;
  lor850 <- set_valid_bl lor850 ;;
  t_faux_bl <- faux_bl lor850 ;;
  Ok (Tables t_prechargement t_saut_bl t_faulty_pickup t_merged_data
        t_merged_data_filtered t_565 t_trans_tmp t_trans_fic lor850
        t_faux_bl).

(** ** The export (source lines 201-209) *)






End Program.

(** ** A runtime to run the model with

    ASCII tables only, no date parser, and the stable insertion sort
    ([kind='stable']) for [sort_values]. *)

Definition key_leb (a b : option Z) : bool :=
  match a, b with
  | Some x, Some y => (x <=? y)%Z
  | _, None => true
  | None, Some _ => false
  end.

Fixpoint insert_row (key : list cell -> option Z) (r : list cell)
    (l : list (list cell)) : list (list cell) :=
  match l with
  | [] => [r]
  | r' :: l' =>
      if key_leb (key r) (key r') then r :: l
      else r' :: insert_row key r l'
  end.

Definition stable_sort (key : list cell -> option Z) (l : list (list cell))
    : list (list cell) :=
  fold_right (insert_row key) [] l.

Definition ascii_runtime : runtime :=
  {| uni_digit := fun _ => false;
     uni_space := fun _ => false;
     uni_lower := List.map ascii_lower;
     parse_datetime := fun _ => None;
     timestamp_str := fun t => lit "T" ++ int_str t;
     sort_values := stable_sort |}.

(** ** Definitions the statements compare the program with *)


(** Column renaming as the specification words it for LOR518: only the
    exact placeholders are renamed.  To be compared with [new_col_life]. *)
Definition spec_new_col_life (rt : runtime) (col : pystr) : pystr :=
  let name := str_lower rt (str_strip rt col) in
  if pystr_eqb name (lit "unnamed: 6") then lit "vendor"
  else if pystr_eqb name (lit "unnamed: 8") then lit "customer name"
  else name.

(** ** What the proofs ask of the runtime *)

(** Lower-casing beyond ASCII: what [str.lower] returns is already in lower
    case, and lower-casing a text without surrounding white space does not
    create any. *)
Record lower_laws (rt : runtime) : Prop := LowerLaws {
  lower_fixed : forall s : pystr,
    forallb is_ascii s = false ->
    str_lower rt (uni_lower rt s) = uni_lower rt s;
  lower_trimmed : forall s : pystr,
    forallb is_ascii s = false ->
    str_strip rt s = s ->
    str_strip rt (uni_lower rt s) = uni_lower rt s
}.

(** A text that does not start with white space, and one that has none at
    either end. *)
Definition starts_clean (rt : runtime) (s : pystr) : bool :=
  match s with
  | [] => true
  | c :: _ => negb (is_space rt c)
  end.

Definition trimmed (rt : runtime) (s : pystr) : bool :=
  starts_clean rt s && starts_clean rt (rev s).

(** [sort_values] returns the rows it was given, keys ascending and missing
    keys last; the order among equal keys is left open. *)
Record sort_laws (rt : runtime) : Prop := SortLaws {
  sort_permutes : forall key l, Permutation (sort_values rt key l) l;
  sort_orders : forall key l,
    StronglySorted (fun a b => key_leb (key a) (key b) = true)
      (sort_values rt key l)
}.

(** The difference column as the specification words it: 0 on the first
    row, then each ticket number minus the one before. *)
Fixpoint spec_deltas (prev : Z) (l : list Z) : list Z :=
  match l with
  | [] => []
  | x :: l' => (x - prev)%Z :: spec_deltas x l'
  end.

Definition spec_forward_difference (l : list Z) : list Z :=
  match l with
  | [] => []
  | x :: l' => 0%Z :: spec_deltas x l'
  end.

(** The integer held by a numeric cell. *)
Definition int_of (c : cell) : Z := match c with Int z => z | _ => 0%Z end.

(** ** A small run

    Three raw exports with the labels as the spreadsheets give them: two
    tickets, two receipts and one status row whose statut suivant is 999. *)

Definition sample_lor518 : frame :=
  Frame
    [lit "Ticket Date"; lit "Plant"; lit "Ticket#"; lit "Customer";
     lit "Unnamed: 6"; lit "Ship To"; lit "Unnamed: 8"; lit "Prod Desc";
     lit "Delv"; lit "Truck"; lit "Hired"; lit "Shipment"; lit "Load";
     lit " Remarks "]
    [[Date 20; Str (lit "P1"); Int 101; Str (lit "C1");
      Str (lit "PRECHARGEMENT SA"); Str (lit "A"); Str (lit "N1");
      Str (lit "CEM"); Str (lit "Y"); Str (lit "T1"); Str (lit "TMP");
      Str (lit "S1"); Int 30; NaN];
     [Date 10; Str (lit "P1"); Int 100; Str (lit "C2"); Str (lit "V2");
      Str (lit "B"); Str (lit "N2"); Str (lit "CEM"); Str (lit "N");
      Str (lit "T2"); Str (lit "OWN"); Str (lit "S2"); Int 28; NaN]].

Definition sample_lor850 : frame :=
  Frame
    [lit "Plant"; lit "Receipt Date"; lit "Unnamed: 5"; lit "Unnamed: 8";
     lit "Qty"; lit "External Ticket/BOL"; lit "Carrier ID";
     lit "Carrier Name"; lit "Driver Name"; lit "Reference No"; lit "User"]
    [[Str (lit "P1"); Date 5; Str (lit "C1"); Str (lit "GYPSE VRAC");
      Int 30; Str (lit "LOR-212345"); Int 7;
      Str (lit "Transpoteur Fictif"); NaN; NaN; Str (lit "u1")];
     [Str (lit "P1"); Date 6; Str (lit "C1"); Str (lit "SABLE");
      Int 12; Str (lit "LOR-312345"); Int 8; Str (lit "TRANSCO"); NaN; NaN;
      Str (lit "u2")]].

Definition sample_jde : frame :=
  Frame
    [lit "N" ++ [176] ++ lit " Exp" ++ [233] ++ lit "d."; lit "Magasin/Usine";
     lit "T C"; lit "Dernier Statut"; lit "Statut Suivant";
     lit "Date Comm."; lit "N" ++ [186] ++ lit " Comm."; lit "Description 1"]
    [[Str (lit "S1"); Str (lit "M1"); Str (lit "SO"); Int 100; Int 999;
      Date 9; Int 4500; Str (lit "ciment")]].


(** ** Order-preserving sub-lists *)

(** [subseq l l']: [l] is [l'] with some elements left out, the others in
    their order. *)
Inductive subseq {A : Type} : list A -> list A -> Prop :=
| subseq_nil : subseq [] []
| subseq_skip (a : A) (l l' : list A) : subseq l l' -> subseq l (a :: l')
| subseq_keep (a : A) (l l' : list A) : subseq l l' -> subseq (a :: l) (a :: l').

(** [sep.join(parts)] for a one-character separator. *)
Fixpoint join (sep : N) (parts : list pystr) : pystr :=
  match parts with
  | [] => []
  | [p] => p
  | p :: ps => p ++ sep :: join sep ps
  end.

(** The ticket numbers [z], [z+1], ..., [z+n-1]. *)
Definition consecutive (z : Z) (n : nat) : list Z :=
  List.map (fun k => (z + Z.of_nat k)%Z) (seq 0 n).

(** [missing names have]: one of [names] is not among [have]. *)
Definition missing (names have : list pystr) : Prop :=
  exists name, In name names /\ ~ In name have.

(** * Properties *)

(** ** Strings *)

Lemma pystr_eqb_eq (a b : pystr) : pystr_eqb a b = true <-> a = b.
Proof.
  revert b; induction a as [|x a IH]; intros [|y b]; simpl;
    try (split; [discriminate | discriminate]); try tauto.
  rewrite andb_true_iff, N.eqb_eq, IH.
  split; [intros [-> ->]; reflexivity | intros H; inversion H; auto].
Qed.

Lemma pystr_eqb_refl (a : pystr) : pystr_eqb a a = true.
Proof. apply pystr_eqb_eq; reflexivity. Qed.

Lemma starts_with_spec (p s : pystr) :
  starts_with p s = true <-> exists post, s = p ++ post.
Proof.
  revert s; induction p as [|x p IH]; intros s; simpl.
  - split; [intros _; exists s; reflexivity | reflexivity].
  - destruct s as [|y s].
    + split; [discriminate | intros [post H]; discriminate].
    + rewrite andb_true_iff, N.eqb_eq, IH. split.
      * intros [-> [post ->]]. exists post. reflexivity.
      * intros [post H]. inversion H. split; [reflexivity | eauto].
Qed.

(** [p in s] holds exactly when [p] is a contiguous part of [s]. *)
Lemma str_in_spec (p s : pystr) :
  str_in p s = true <-> exists pre post, s = pre ++ p ++ post.
Proof.
  induction s as [|y s IH].
  - simpl. rewrite orb_false_r, starts_with_spec. split.
    + intros [post H]. exists [], post. exact H.
    + intros [pre [post H]]. destruct pre; simpl in H.
      * exists post. exact H.
      * discriminate.
  - cbn [str_in]. rewrite orb_true_iff, starts_with_spec, IH. split.
    + intros [[post H] | [pre [post H]]].
      * exists [], post. exact H.
      * exists (y :: pre), post. rewrite H. reflexivity.
    + intros [pre [post H]]. destruct pre as [|z pre]; simpl in H.
      * left. exists post. exact H.
      * right. inversion H. exists pre, post. reflexivity.
Qed.

Lemma split_cons_hyphen (sep : N) (s : pystr) :
  split sep (sep :: s) = [] :: split sep s.
Proof. simpl. rewrite N.eqb_refl. reflexivity. Qed.

Lemma split_no_sep (sep : N) (s : pystr) :
  Forall (fun c => c <> sep) s -> split sep s = [s].
Proof.
  induction 1 as [|c s Hc _ IH]; simpl; [reflexivity|].
  apply N.eqb_neq in Hc. rewrite Hc, IH. reflexivity.
Qed.

(** ** The regular expressions of the program *)

Section Regex.

Variable rt : runtime.

Lemma is_digit_hyphen (c : N) : is_digit rt c = true -> c <> 45.
Proof. intros H ->. discriminate H. Qed.

Lemma run_word_starts (w : pystr) (b : bool) (s : pystr) :
  matches_at rt (word w) (b, s) = starts_with w s.
Proof.
  unfold matches_at. revert b s.
  induction w as [|c w IH]; intros b s; simpl; [reflexivity|].
  unfold step_if; simpl. destruct s as [|y s]; simpl; [reflexivity|].
  destruct (c =? y); simpl; [|reflexivity].
  rewrite app_nil_r. apply IH.
Qed.

Lemma search_word (w s : pystr) : re_search rt (word w) s = str_in w s.
Proof.
  unfold re_search. generalize true.
  induction s as [|y s IH]; intros b; simpl.
  - rewrite run_word_starts. reflexivity.
  - rewrite run_word_starts, IH. reflexivity.
Qed.

Lemma matches_at_Alt (r1 r2 : regex) (st : mstate) :
  matches_at rt (Alt r1 r2) st = matches_at rt r1 st || matches_at rt r2 st.
Proof.
  unfold matches_at; simpl. destruct (run rt r1 st); reflexivity.
Qed.

Lemma matches_at_alternation (w : pystr) (ws : list pystr) (b : bool)
    (s : pystr) :
  matches_at rt (alternation (w :: ws)) (b, s)
  = existsb (fun x => starts_with x s) (w :: ws).
Proof.
  revert w; induction ws as [|w' ws IH]; intros w.
  - simpl. rewrite run_word_starts, orb_false_r. reflexivity.
  - change (alternation (w :: w' :: ws))
      with (Alt (word w) (alternation (w' :: ws))).
    rewrite matches_at_Alt, run_word_starts, IH. reflexivity.
Qed.

Lemma existsb_same {A} (f g : A -> bool) (l : list A) :
  (forall x, f x = g x) -> existsb f l = existsb g l.
Proof.
  intros H. induction l as [|a l IH]; simpl; [reflexivity|].
  rewrite H, IH. reflexivity.
Qed.

Lemma existsb_orb_pointwise {A} (f g : A -> bool) (l : list A) :
  existsb (fun x => f x || g x) l = existsb f l || existsb g l.
Proof.
  induction l as [|a l IH]; simpl; [reflexivity|].
  rewrite IH. destruct (f a), (g a), (existsb f l); reflexivity.
Qed.

(** Searching [w1|w2|...] finds a string exactly when one of the words is
    a part of it. *)
Lemma search_alternation (w : pystr) (ws : list pystr) (s : pystr) :
  re_search rt (alternation (w :: ws)) s
  = existsb (fun x => str_in x s) (w :: ws).
Proof.
  unfold re_search. generalize true.
  induction s as [|y s IH]; intros b.
  - cbn [search_from]. rewrite matches_at_alternation, orb_false_r.
    apply existsb_same. intros x. simpl. rewrite orb_false_r. reflexivity.
  - cbn [search_from]. rewrite matches_at_alternation, IH.
    rewrite <- existsb_orb_pointwise. reflexivity.
Qed.

(** [re.fullmatch] of the BL pattern, read off the text. *)
Lemma fullmatch_bl_pattern (code : pystr) :
  re_fullmatch rt bl_pattern code = true <->
  exists c ds, code = c :: ds /\ In c (lit "347") /\
               List.length ds = 5%nat /\
               Forall (fun d => is_digit rt d = true) ds.
Proof.
  assert (first : forall c, existsb (N.eqb c) (lit "347") = true
                            <-> In c (lit "347")).
  { intros c. rewrite existsb_exists. split.
    - intros [x [Hx E]]. apply N.eqb_eq in E. subst. exact Hx.
    - intros H. exists c. split; [exact H | apply N.eqb_refl]. }
  unfold re_fullmatch, bl_pattern.
  destruct code as [|c [|d1 [|d2 [|d3 [|d4 [|d5 [|d6 rest]]]]]]];
    cbn [run flat_map fst snd step_if iterate app existsb at_end].
  all: try (split; [discriminate | intros (c' & ds & E & _ & L & _);
                                   inversion E; subst; discriminate L]).
  all: destruct (existsb (N.eqb c) (lit "347")) eqn:Hc;
    cbn [run flat_map fst snd step_if iterate app existsb at_end].
  all: try (split; [discriminate
                   | intros (c' & ds & E & Hin & _); inversion E; subst;
                     apply first in Hin; congruence]).
  all: try (split; [discriminate | intros (c' & ds & E & _ & L & _);
                                   inversion E; subst; discriminate L]).
  all: repeat match goal with
         | |- context [is_digit rt ?d] =>
             let H := fresh "Hd" in
             destruct (is_digit rt d) eqn:H;
             cbn [run flat_map fst snd step_if iterate app existsb at_end]
         end.
  all: try (split; [discriminate
                   | intros (c' & ds & E & _ & _ & F); inversion E; subst;
                     repeat match goal with
                       | H : Forall _ (_ :: _) |- _ => inversion H; clear H; subst
                       end; congruence]).
  all: try (split; [discriminate | intros (c' & ds & E & _ & L & _);
                                   inversion E; subst; discriminate L]).
  - split; [intros _ | reflexivity].
    exists c, [d1; d2; d3; d4; d5].
    repeat split; [apply first; exact Hc | repeat constructor; assumption].
  - split; [| intros (c' & ds & E & _ & L & _);
              inversion E; subst; discriminate L].
    destruct (pystr_eqb (d6 :: rest) [10]); simpl; discriminate.
Qed.

End Regex.

(** ** The BL validator *)

Section Validator.

Variable rt : runtime.

(** The validator, with the exception handling resolved. *)
Lemma validate_bl_number_cases (v : cell) :
  validate_bl_number rt v =
  if isna v then Ok false
  else match split 45 (py_str rt v) with
       | [_; code] => Ok (re_fullmatch rt bl_pattern code)
       | _ => Ok false
       end.
Proof.
  unfold validate_bl_number. destruct (isna v); [reflexivity|].
  destruct (split 45 (py_str rt v)) as [|a [|b [|c l]]]; reflexivity.
Qed.

End Validator.

Lemma validate_bl_number_total (rt : runtime) (v : cell) :
  exists b : bool, validate_bl_number rt v = Ok b.
Proof.
  rewrite validate_bl_number_cases.
  destruct (isna v); [eauto|].
  destruct (split 45 (py_str rt v)) as [|a [|b [|c l]]]; eauto.
Qed.

Lemma validate_bl_number_true (rt : runtime) (v : cell) :
  validate_bl_number rt v = Ok true <->
  isna v = false /\
  exists prefix code : pystr,
    split 45 (py_str rt v) = [prefix; code] /\
    exists (c : N) (ds : pystr),
      code = c :: ds /\ In c (lit "347") /\ List.length ds = 5%nat /\
      Forall (fun d => is_digit rt d = true) ds.
Proof.
  rewrite validate_bl_number_cases.
  destruct (isna v).
  - split; [discriminate | intros [H _]; discriminate H].
  - destruct (split 45 (py_str rt v)) as [|a [|b [|c l]]].
    1, 2, 4: split; [discriminate
                    | intros [_ (p & code & E & _)]; discriminate E].
    split.
    + intros H. split; [reflexivity|]. exists a, b.
      split; [reflexivity|]. apply fullmatch_bl_pattern.
      inversion H. reflexivity.
    + intros [_ (p & code & E & H)]. inversion E; subst.
      apply fullmatch_bl_pattern in H. rewrite H. reflexivity.
Qed.

(** C1: the validator returns a truth value on every cell and never raises;
    it returns true exactly when the cell is not null, its text splits on
    "-" into exactly two segments and the second one is one of 3, 4, 7
    followed by exactly five digits; the five sample values of the
    specification evaluate as stated. *)
Theorem validate_bl_number_spec (rt : runtime) :
  (forall v : cell, exists b : bool, validate_bl_number rt v = Ok b) /\
  (forall v : cell,
     validate_bl_number rt v = Ok true <->
     isna v = false /\
     exists prefix code : pystr,
       split 45 (py_str rt v) = [prefix; code] /\
       exists (c : N) (ds : pystr),
         code = c :: ds /\ In c (lit "347") /\ List.length ds = 5%nat /\
         Forall (fun d => is_digit rt d = true) ds) /\
  validate_bl_number rt (Str (lit "LOR-312345")) = Ok true /\
  validate_bl_number rt (Str (lit "LOR-212345")) = Ok false /\
  validate_bl_number rt (Str (lit "LOR-3123456")) = Ok false /\
  validate_bl_number rt (Str (lit "LOR312345")) = Ok false /\
  validate_bl_number rt NaN = Ok false.
Proof.
  split; [exact (validate_bl_number_total rt)|].
  split; [exact (validate_bl_number_true rt)|].
  repeat split; reflexivity.
Qed.

(** C9: an identifier with an empty prefix is accepted: "-312345", and
    every text made of "-" and a six-digit code starting with 3, 4 or 7,
    splits into the empty segment and the code, and validates. *)
Theorem validate_bl_number_empty_prefix (rt : runtime) :
  split 45 (lit "-312345") = [[]; lit "312345"] /\
  validate_bl_number rt (Str (lit "-312345")) = Ok true /\
  forall (c : N) (ds : pystr),
    In c (lit "347") -> List.length ds = 5%nat ->
    Forall (fun d => is_digit rt d = true) ds ->
    split 45 (45 :: c :: ds) = [[]; c :: ds] /\
    validate_bl_number rt (Str (45 :: c :: ds)) = Ok true.
Proof.
  split; [reflexivity | split; [reflexivity|]].
  intros c ds Hc Hlen Hds.
  assert (S : split 45 (45 :: c :: ds) = [[]; c :: ds]).
  { rewrite split_cons_hyphen, split_no_sep; [reflexivity|].
    constructor.
    - simpl in Hc. intros ->.
      destruct Hc as [H | [H | [H | []]]]; discriminate H.
    - eapply Forall_impl; [|exact Hds]. apply is_digit_hyphen. }
  split; [exact S|].
  apply validate_bl_number_true.
  split; [reflexivity|]. exists [], (c :: ds). split; [exact S|].
  exists c, ds. auto.
Qed.

(** The concrete case of C9 on the ASCII runtime. *)
Lemma validate_bl_number_empty_prefix_witness :
  split 45 (45 :: 52 :: lit "00007") = [[]; 52 :: lit "00007"] /\
  validate_bl_number ascii_runtime (Str (45 :: 52 :: lit "00007")) = Ok true.
Proof.
  apply (proj2 (proj2 (validate_bl_number_empty_prefix ascii_runtime))).
  - simpl. tauto.
  - reflexivity.
  - repeat constructor.
Defined.

(** ** Frames and masks *)

Lemma mask_rows_map (p : list cell -> bool) (rs : list (list cell)) :
  mask_rows (List.map p rs) rs = filter p rs.
Proof.
  induction rs as [|r rs IH]; simpl; [reflexivity|].
  rewrite IH. reflexivity.
Qed.

Lemma zip_with_map {A B C D} (f : B -> C -> D) (g : A -> B) (h : A -> C)
    (l : list A) :
  zip_with f (List.map g l) (List.map h l) = List.map (fun x => f (g x) (h x)) l.
Proof.
  induction l as [|a l IH]; simpl; [reflexivity|].
  rewrite IH. reflexivity.
Qed.

Lemma series_eq_column (i : nat) (rs : list (list cell)) (v : cell) :
  series_eq (column_at i rs) v = List.map (fun r => py_eq (cell_at i r) v) rs.
Proof. unfold series_eq, column_at. apply map_map. Qed.

Lemma series_ne_column (i : nat) (rs : list (list cell)) (v : cell) :
  series_ne (column_at i rs) v
  = List.map (fun r => negb (py_eq (cell_at i r) v)) rs.
Proof. unfold series_ne, column_at. apply map_map. Qed.

Lemma isin_column (i : nat) (rs : list (list cell)) (vs : list cell) :
  isin (column_at i rs) vs
  = List.map (fun r => existsb (py_eq (cell_at i r)) vs) rs.
Proof. unfold isin, column_at. apply map_map. Qed.

Lemma str_contains_column (rt : runtime) (i : nat) (rs : list (list cell))
    (pat : regex) :
  str_contains rt (column_at i rs) pat
  = List.map (fun r => match cell_at i r with
                       | Str x => re_search rt pat x
                       | _ => false
                       end) rs.
Proof. unfold str_contains, column_at. apply map_map. Qed.

(** A mask built row by row from two tests selects the rows passing both. *)
Lemma loc_mask_and (cols : list pystr) (p q : list cell -> bool)
    (rs : list (list cell)) :
  loc (Frame cols rs) (mask_and (List.map p rs) (List.map q rs))
  = Frame cols (filter (fun r => p r && q r) rs).
Proof.
  unfold loc, mask_and; simpl. rewrite zip_with_map, mask_rows_map.
  reflexivity.
Qed.

Lemma loc_mask (cols : list pystr) (p : list cell -> bool)
    (rs : list (list cell)) :
  loc (Frame cols rs) (List.map p rs) = Frame cols (filter p rs).
Proof. unfold loc; simpl. rewrite mask_rows_map. reflexivity. Qed.

(** Equality with a string literal is equality of cells. *)
Lemma py_eq_Str (c : cell) (s : pystr) :
  py_eq c (Str s) = true <-> c = Str s.
Proof.
  destruct c; simpl; try (split; discriminate).
  rewrite pystr_eqb_eq. split; [intros ->; reflexivity | intros H; inversion H; reflexivity].
Qed.

Lemma py_eq_Int_big (c : cell) (z : Z) :
  (1 < z)%Z -> py_eq c (Int z) = true <-> c = Int z.
Proof.
  intros Hz. destruct c as [| |x|b|]; simpl; try (split; discriminate).
  - rewrite Z.eqb_eq. split; [intros ->; reflexivity | intros H; inversion H; reflexivity].
  - split; [|discriminate]. rewrite Z.eqb_eq. destruct b; lia.
Qed.

(** ** The rules on the selected tables *)

Lemma trans_tmp_rows (rs : list (list cell)) :
  trans_tmp (Frame data_life_columns rs)
  = Ok (Frame data_life_columns
          (filter (fun r => py_eq (cell_at 10 r) (Str (lit "TMP")) &&
                            py_eq (cell_at 8 r) (Str (lit "Y"))) rs)).
Proof.
  unfold trans_tmp, getitem.
  assert (locate (Frame data_life_columns rs) (lit "hired") = Ok 10%nat)
    as -> by reflexivity.
  assert (locate (Frame data_life_columns rs) (lit "delv") = Ok 8%nat)
    as -> by reflexivity.
  cbn [bind rows].
  rewrite !series_eq_column, loc_mask_and. reflexivity.
Qed.

Lemma faulty_pickup_rows (rs : list (list cell)) :
  faulty_pickup (Frame data_life_columns rs)
  = Ok (Frame data_life_columns
          (filter (fun r => negb (py_eq (cell_at 10 r) (Str (lit "TMP"))) &&
                            py_eq (cell_at 8 r) (Str (lit "N"))) rs)).
Proof.
  unfold faulty_pickup, getitem.
  assert (locate (Frame data_life_columns rs) (lit "hired") = Ok 10%nat)
    as -> by reflexivity.
  assert (locate (Frame data_life_columns rs) (lit "delv") = Ok 8%nat)
    as -> by reflexivity.
  cbn [bind rows].
  rewrite series_eq_column, series_ne_column, loc_mask_and. reflexivity.
Qed.

(** C7: on every ticket table the TMP-Transporter subset (hired = "TMP",
    delv = "Y") and the Faulty-Pickup subset (hired <> "TMP", delv = "N")
    share no row, and a row with hired = "TMP" is never a faulty pickup,
    whatever its delv. *)
Theorem trans_tmp_faulty_pickup_disjoint (rs : list (list cell)) :
  exists tmp faulty : list (list cell),
    trans_tmp (Frame data_life_columns rs) = Ok (Frame data_life_columns tmp) /\
    faulty_pickup (Frame data_life_columns rs)
      = Ok (Frame data_life_columns faulty) /\
    (forall r, In r tmp <->
               In r rs /\ cell_at 10 r = Str (lit "TMP") /\
               cell_at 8 r = Str (lit "Y")) /\
    (forall r, In r faulty <->
               In r rs /\ cell_at 10 r <> Str (lit "TMP") /\
               cell_at 8 r = Str (lit "N")) /\
    (forall r, In r tmp -> ~ In r faulty) /\
    (forall r, cell_at 10 r = Str (lit "TMP") -> ~ In r faulty).
Proof.
  eexists; eexists.
  split; [apply trans_tmp_rows | split; [apply faulty_pickup_rows|]].
  assert (F : forall r,
             In r (filter (fun r => negb (py_eq (cell_at 10 r) (Str (lit "TMP")))
                                    && py_eq (cell_at 8 r) (Str (lit "N"))) rs)
             <-> In r rs /\ cell_at 10 r <> Str (lit "TMP") /\
                 cell_at 8 r = Str (lit "N")).
  { intros r. rewrite filter_In, andb_true_iff, negb_true_iff, py_eq_Str.
    rewrite <- not_true_iff_false, py_eq_Str. tauto. }
  assert (T : forall r,
             In r (filter (fun r => py_eq (cell_at 10 r) (Str (lit "TMP"))
                                    && py_eq (cell_at 8 r) (Str (lit "Y"))) rs)
             <-> In r rs /\ cell_at 10 r = Str (lit "TMP") /\
                 cell_at 8 r = Str (lit "Y")).
  { intros r. rewrite filter_In, andb_true_iff, !py_eq_Str. tauto. }
  split; [exact T | split; [exact F | split]].
  - intros r Ht Hf. apply T in Ht. apply F in Hf. tauto.
  - intros r Hh Hf. apply F in Hf. tauto.
Qed.

Lemma trans_fic_rows (rt : runtime) (rs : list (list cell)) :
  trans_fic rt (Frame lor850_keep rs)
  = Ok (Frame lor850_keep
          (filter (fun r =>
                     match cell_at 3 r with
                     | Str x => existsb (fun m => str_in m x) trans_fic_materials
                     | _ => false
                     end &&
                     py_eq (cell_at 7 r) (Str (lit "Transpoteur Fictif"))) rs)).
Proof.
  unfold trans_fic, getitem.
  assert (locate (Frame lor850_keep rs) (lit "produit") = Ok 3%nat)
    as -> by reflexivity.
  assert (locate (Frame lor850_keep rs) (lit "carrier name") = Ok 7%nat)
    as -> by reflexivity.
  cbn [bind rows].
  rewrite series_eq_column, str_contains_column, loc_mask_and.
  do 2 f_equal. apply filter_ext. intros r.
  destruct (cell_at 3 r); try reflexivity.
  unfold trans_fic_materials. rewrite search_alternation. reflexivity.
Qed.



(** ** The status join *)

Lemma filter_map_comm {A B} (f : A -> B) (p : B -> bool) (l : list A) :
  filter p (List.map f l) = List.map f (filter (fun a => p (f a)) l).
Proof.
  induction l as [|a l IH]; simpl; [reflexivity|].
  rewrite IH. destruct (p (f a)); reflexivity.
Qed.

Lemma data_jde_filtered_rows (js : list (list cell)) :
  data_jde_filtered (Frame data_jde_columns js)
  = Ok (Frame data_jde_columns
          (filter (fun j =>
                     existsb (py_eq (cell_at 2 j))
                       [Str (lit "SO"); Str (lit "ST")] &&
                     negb (existsb (py_eq (cell_at 3 j))
                             [Int 980; Int 984; Int 989])) js)).
Proof.
  unfold data_jde_filtered, getitem.
  assert (locate (Frame data_jde_columns js) (lit "t c") = Ok 2%nat)
    as -> by reflexivity.
  assert (locate (Frame data_jde_columns js) (lit "dernier statut") = Ok 3%nat)
    as -> by reflexivity.
  cbn [bind rows]. unfold mask_not.
  rewrite !isin_column, map_map, loc_mask_and. reflexivity.
Qed.

(** The join of the ticket table with the kept status rows: every ticket
    row in order, once per status row with the same shipment, or once with
    two missing values. *)
Lemma merged_data_rows (ls fs : list (list cell)) :
  merged_data (Frame data_life_columns ls) (Frame data_jde_columns fs)
  = Ok (Frame (data_life_columns ++ [n_exped; lit "statut suivant"])
          (flat_map
             (fun l =>
                match filter (fun j => key_eq (cell_at 11 l) (cell_at 0 j)) fs
                with
                | [] => [l ++ [NaN; NaN]]
                | found =>
                    List.map (fun j => l ++ [cell_at 0 j; cell_at 4 j]) found
                end) ls)).
Proof.
  unfold merged_data, select.
  assert (mapM (locate (Frame data_jde_columns fs))
            [n_exped; lit "statut suivant"] = Ok [0%nat; 4%nat])
    as -> by reflexivity.
  cbn [bind rows]. unfold merge_left.
  assert (forall rs, locate (Frame data_life_columns rs) (lit "shipment")
                     = Ok 11%nat) as -> by reflexivity.
  assert (forall rs, locate (Frame [n_exped; lit "statut suivant"] rs) n_exped
                     = Ok 0%nat) as -> by reflexivity.
  cbn [bind rows columns]. f_equal. f_equal.
  apply flat_map_ext. intros l.
  rewrite filter_map_comm.
  destruct (filter _ fs) as [|j found]; [reflexivity|].
  cbn [List.map]. rewrite map_map. reflexivity.
Qed.

Lemma staut_suivant_565_rows (ms : list (list cell)) :
  staut_suivant_565
    (Frame (data_life_columns ++ [n_exped; lit "statut suivant"]) ms)
  = Ok (Frame (data_life_columns ++ [n_exped; lit "statut suivant"])
          (filter (fun m => py_eq (cell_at 14 m) (Int 565)) ms)).
Proof.
  unfold staut_suivant_565, getitem.
  assert (locate
            (Frame (data_life_columns ++ [n_exped; lit "statut suivant"]) ms)
            (lit "statut suivant") = Ok 14%nat) as -> by reflexivity.
  cbn [bind rows]. rewrite series_eq_column, loc_mask. reflexivity.
Qed.

Lemma cell_at_app_right (l extra : list cell) (i : nat) :
  cell_at (List.length l + i) (l ++ extra) = cell_at i extra.
Proof.
  unfold cell_at. rewrite app_nth2 by lia. f_equal. lia.
Qed.



(** ** Column normalisation *)

Lemma dict_get_set (d : dict) (k v k' : pystr) :
  dict_get (dict_set d k v) k'
  = if pystr_eqb k k' then Some v else dict_get d k'.
Proof.
  induction d as [|[k0 v0] d IH]; simpl.
  - reflexivity.
  - destruct (pystr_eqb k0 k) eqn:E0; simpl.
    + apply pystr_eqb_eq in E0. subst k0.
      destruct (pystr_eqb k k'); reflexivity.
    + destruct (pystr_eqb k0 k') eqn:E1.
      * apply pystr_eqb_eq in E1. subst k0.
        destruct (pystr_eqb k k') eqn:E2; [|reflexivity].
        apply pystr_eqb_eq in E2. subst k'.
        rewrite pystr_eqb_refl in E0. discriminate.
      * exact IH.
Qed.

(** After the loop the dict maps every label of the table to the value the
    loop body computes for it. *)
Lemma new_columns_get (body : pystr -> pystr) (cols : list pystr)
    (c : pystr) :
  In c cols -> dict_get (new_columns body cols) c = Some (body c).
Proof.
  unfold new_columns.
  assert (G : forall d,
             dict_get (fold_left (fun d col => dict_set d col (body col)) cols d) c
             = if existsb (pystr_eqb c) cols then Some (body c)
               else dict_get d c).
  { induction cols as [|x cols IH]; intros d; simpl; [reflexivity|].
    rewrite IH, dict_get_set.
    destruct (existsb (pystr_eqb c) cols); [rewrite orb_true_r; reflexivity|].
    rewrite orb_false_r.
    destruct (pystr_eqb x c) eqn:E.
    - apply pystr_eqb_eq in E. subst x. rewrite pystr_eqb_refl. reflexivity.
    - destruct (pystr_eqb c x) eqn:E'; [|reflexivity].
      apply pystr_eqb_eq in E'. subst x. rewrite pystr_eqb_refl in E.
      discriminate. }
  intros Hin. rewrite G.
  assert (existsb (pystr_eqb c) cols = true) as ->; [|reflexivity].
  apply existsb_exists. exists c. split; [exact Hin | apply pystr_eqb_refl].
Qed.

Lemma rename_new_columns (body : pystr -> pystr) (df : frame) :
  rename df (new_columns body (columns df))
  = Frame (List.map body (columns df)) (rows df).
Proof.
  unfold rename. f_equal. apply map_ext_in. intros c Hc.
  rewrite new_columns_get by exact Hc. reflexivity.
Qed.

Lemma new_col_life_cases (rt : runtime) (col : pystr) :
  new_col_life rt col =
  let name := str_lower rt (str_strip rt col) in
  if str_in (lit "unnamed: 6") name then lit "vendor"
  else if str_in (lit "unnamed: 8") name then lit "customer name"
  else name.
Proof.
  unfold new_col_life. cbv zeta.
  destruct (str_in (lit "unnamed: 6") (str_lower rt (str_strip rt col)));
    reflexivity.
Qed.

Lemma new_col_lor850_cases (rt : runtime) (col : pystr) :
  new_col_lor850 rt col =
  let name := str_lower rt (str_strip rt col) in
  if str_in (lit "unnamed: 5") name then lit "customer"
  else if str_in (lit "unnamed: 8") name then lit "produit"
  else name.
Proof.
  unfold new_col_lor850. cbv zeta.
  destruct (str_in (lit "unnamed: 5") (str_lower rt (str_strip rt col)));
    reflexivity.
Qed.

(** C5, as the specification words it, fails: the label "Unnamed: 60" is
    not the placeholder of column 6, yet the program renames it to
    "vendor". *)
Lemma normalize_life_exact_counterexample :
  ~ (forall (rt : runtime) (df : frame),
       columns (normalize_life rt df)
       = List.map (spec_new_col_life rt) (columns df)).
Proof.
  intros H.
  specialize (H ascii_runtime (Frame [lit "Unnamed: 60"] [])).
  vm_compute in H. discriminate H.
Qed.

(** C5, amended: a label is renamed to "vendor" when its trimmed,
    lower-cased form holds "unnamed: 6" as a part, otherwise to
    "customer name" when that form holds "unnamed: 8" as a part, and is
    otherwise only trimmed and lower-cased; the labels keep their
    positions and the rows are untouched. *)
Theorem normalize_life_spec (rt : runtime) (df : frame) :
  rows (normalize_life rt df) = rows df /\
  columns (normalize_life rt df) = List.map (new_col_life rt) (columns df) /\
  forall col : pystr,
    let name := str_lower rt (str_strip rt col) in
    let holds := fun p => exists pre post, name = pre ++ lit p ++ post in
    (holds "unnamed: 6"%string -> new_col_life rt col = lit "vendor") /\
    (~ holds "unnamed: 6"%string -> holds "unnamed: 8"%string ->
     new_col_life rt col = lit "customer name") /\
    (~ holds "unnamed: 6"%string -> ~ holds "unnamed: 8"%string ->
     new_col_life rt col = name).
Proof.
  unfold normalize_life. rewrite rename_new_columns.
  split; [reflexivity | split; [reflexivity|]].
  intros col. rewrite new_col_life_cases. cbv zeta.
  set (name := str_lower rt (str_strip rt col)).
  destruct (str_in (lit "unnamed: 6") name) eqn:E6;
    [apply str_in_spec in E6
    | assert (N6 : ~ exists pre post, name = pre ++ lit "unnamed: 6" ++ post)
        by (rewrite <- str_in_spec; congruence)];
    (destruct (str_in (lit "unnamed: 8") name) eqn:E8;
     [apply str_in_spec in E8
     | assert (N8 : ~ exists pre post, name = pre ++ lit "unnamed: 8" ++ post)
         by (rewrite <- str_in_spec; congruence)]);
    repeat split; intros; try reflexivity; tauto.
Qed.

(** ** Idempotence of the normalisation *)

Ltac compare_all :=
  repeat match goal with
    | |- context [(?a <=? ?b)] => destruct (N.leb_spec a b)
    | |- context [(?a <? ?b)] => destruct (N.ltb_spec a b)
    end;
  simpl; try reflexivity; try lia.

Lemma ascii_lower_cases (c : N) :
  (65 <= c <= 90 /\ ascii_lower c = c + 32) \/
  (~ 65 <= c <= 90 /\ ascii_lower c = c).
Proof. unfold ascii_lower. compare_all. Qed.

Lemma ascii_lower_idem (c : N) : ascii_lower (ascii_lower c) = ascii_lower c.
Proof.
  destruct (ascii_lower_cases c) as [[H E] | [H E]]; rewrite E.
  - unfold ascii_lower. compare_all.
  - exact E.
Qed.

Lemma is_ascii_ascii_lower (c : N) : is_ascii (ascii_lower c) = is_ascii c.
Proof.
  destruct (ascii_lower_cases c) as [[H E] | [H E]]; rewrite E;
    [|reflexivity].
  unfold is_ascii. compare_all.
Qed.

Section Trim.

Variable rt : runtime.

Lemma is_space_ascii_lower (c : N) :
  is_space rt (ascii_lower c) = is_space rt c.
Proof.
  destruct (ascii_lower_cases c) as [[H E] | [H E]]; rewrite E;
    [|reflexivity].
  unfold is_space, is_ascii, ascii_space. compare_all.
Qed.

Lemma drop_while_clean (s : pystr) :
  starts_clean rt (drop_while (is_space rt) s) = true.
Proof.
  induction s as [|c s IH]; simpl; [reflexivity|].
  destruct (is_space rt c) eqn:E; [exact IH|]. simpl. rewrite E. reflexivity.
Qed.

Lemma drop_while_id (s : pystr) :
  starts_clean rt s = true -> drop_while (is_space rt) s = s.
Proof.
  destruct s as [|c s]; simpl; [reflexivity|].
  destruct (is_space rt c); [discriminate | reflexivity].
Qed.

Lemma drop_while_suffix (p : N -> bool) (s : pystr) :
  exists pre, s = pre ++ drop_while p s.
Proof.
  induction s as [|c s [pre IH]]; simpl.
  - exists []. reflexivity.
  - destruct (p c).
    + exists (c :: pre). simpl. rewrite <- IH. reflexivity.
    + exists []. reflexivity.
Qed.

Lemma starts_clean_prefix (s t : pystr) :
  starts_clean rt (s ++ t) = true -> starts_clean rt s = true.
Proof. destruct s; simpl; auto. Qed.

Lemma strip_trimmed (s : pystr) : trimmed rt (str_strip rt s) = true.
Proof.
  unfold trimmed, str_strip, str_rstrip, str_lstrip.
  rewrite rev_involutive, drop_while_clean, andb_true_r.
  destruct (drop_while_suffix (is_space rt) (rev (drop_while (is_space rt) s)))
    as [pre E].
  apply (f_equal (@rev N)) in E. rewrite rev_involutive, rev_app_distr in E.
  apply starts_clean_prefix with (t := rev pre). rewrite <- E.
  apply drop_while_clean.
Qed.

Lemma trimmed_strip (s : pystr) : trimmed rt s = true -> str_strip rt s = s.
Proof.
  unfold trimmed. rewrite andb_true_iff. intros [H1 H2].
  unfold str_strip, str_rstrip, str_lstrip.
  rewrite (drop_while_id _ H1), (drop_while_id _ H2). apply rev_involutive.
Qed.

Lemma trimmed_iff (s : pystr) : trimmed rt s = true <-> str_strip rt s = s.
Proof.
  split; [apply trimmed_strip|]. intros <-. apply strip_trimmed.
Qed.

Lemma starts_clean_map_lower (s : pystr) :
  starts_clean rt (List.map ascii_lower s) = starts_clean rt s.
Proof.
  destruct s; simpl; [reflexivity|]. rewrite is_space_ascii_lower.
  reflexivity.
Qed.

Lemma trimmed_map_lower (s : pystr) :
  trimmed rt (List.map ascii_lower s) = trimmed rt s.
Proof.
  unfold trimmed. rewrite <- map_rev, !starts_clean_map_lower. reflexivity.
Qed.

Lemma forallb_ascii_map_lower (s : pystr) :
  forallb is_ascii (List.map ascii_lower s) = forallb is_ascii s.
Proof.
  induction s as [|c s IH]; simpl; [reflexivity|].
  rewrite is_ascii_ascii_lower, IH. reflexivity.
Qed.

Lemma map_lower_idem (s : pystr) :
  List.map ascii_lower (List.map ascii_lower s) = List.map ascii_lower s.
Proof.
  rewrite map_map. apply map_ext. apply ascii_lower_idem.
Qed.

Hypothesis laws : lower_laws rt.

Lemma str_lower_idem (s : pystr) :
  str_lower rt (str_lower rt s) = str_lower rt s.
Proof.
  unfold str_lower at 2 3. destruct (forallb is_ascii s) eqn:A.
  - unfold str_lower. rewrite forallb_ascii_map_lower, A.
    apply map_lower_idem.
  - apply (lower_fixed laws). exact A.
Qed.

Lemma str_lower_trimmed (s : pystr) :
  str_strip rt s = s -> str_strip rt (str_lower rt s) = str_lower rt s.
Proof.
  intros H. unfold str_lower. destruct (forallb is_ascii s) eqn:A.
  - apply trimmed_iff. rewrite trimmed_map_lower. apply trimmed_iff. exact H.
  - apply (lower_trimmed laws); assumption.
Qed.

(** Trimming and lower-casing a trimmed, lower-cased label changes
    nothing. *)
Lemma strip_lower_idem (col : pystr) :
  str_lower rt (str_strip rt (str_lower rt (str_strip rt col)))
  = str_lower rt (str_strip rt col).
Proof.
  rewrite str_lower_trimmed.
  - apply str_lower_idem.
  - apply trimmed_iff. apply strip_trimmed.
Qed.

Lemma new_col_life_idem (col : pystr) :
  new_col_life rt (new_col_life rt col) = new_col_life rt col.
Proof.
  rewrite (new_col_life_cases rt col). cbv zeta.
  destruct (str_in (lit "unnamed: 6") (str_lower rt (str_strip rt col)))
    eqn:E6; [reflexivity|].
  destruct (str_in (lit "unnamed: 8") (str_lower rt (str_strip rt col)))
    eqn:E8; [reflexivity|].
  rewrite new_col_life_cases. cbv zeta.
  rewrite strip_lower_idem, E6, E8. reflexivity.
Qed.

Lemma new_col_lor850_idem (col : pystr) :
  new_col_lor850 rt (new_col_lor850 rt col) = new_col_lor850 rt col.
Proof.
  rewrite (new_col_lor850_cases rt col). cbv zeta.
  destruct (str_in (lit "unnamed: 5") (str_lower rt (str_strip rt col)))
    eqn:E5; [reflexivity|].
  destruct (str_in (lit "unnamed: 8") (str_lower rt (str_strip rt col)))
    eqn:E8; [reflexivity|].
  rewrite new_col_lor850_cases. cbv zeta.
  rewrite strip_lower_idem, E5, E8. reflexivity.
Qed.

End Trim.

(** The ASCII runtime meets the laws of lower-casing. *)
Lemma ascii_runtime_lower_laws : lower_laws ascii_runtime.
Proof.
  split.
  - intros s A. unfold str_lower. cbn [uni_lower ascii_runtime].
    rewrite forallb_ascii_map_lower, A. apply map_lower_idem.
  - intros s A H. cbn [uni_lower ascii_runtime].
    apply trimmed_iff. rewrite trimmed_map_lower. apply trimmed_iff. exact H.
Qed.

(** C8: normalising the labels of an already normalised table changes
    nothing, for each of the three source tables. *)
Theorem normalize_idempotent (rt : runtime) (laws : lower_laws rt)
    (df : frame) :
  normalize_life rt (normalize_life rt df) = normalize_life rt df /\
  normalize_lor850 rt (normalize_lor850 rt df) = normalize_lor850 rt df /\
  normalize_jde rt (normalize_jde rt df) = normalize_jde rt df.
Proof.
  unfold normalize_life, normalize_lor850, normalize_jde.
  rewrite !rename_new_columns. cbn [columns rows].
  rewrite !map_map.
  repeat split; f_equal; apply map_ext; intros col.
  - apply new_col_life_idem. exact laws.
  - apply new_col_lor850_idem. exact laws.
  - apply strip_lower_idem. exact laws.
Qed.

(** C8 on a table with mixed-case, padded and placeholder labels. *)
Lemma normalize_idempotent_witness :
  let df := Frame [lit "  Ticket Date "; lit "Unnamed: 6"; lit "PLANT";
                   lit "unnamed: 8 "; lit "Unnamed: 5"]
                  [[Int 1; Str (lit "a"); NaN; NaN; NaN]] in
  normalize_life ascii_runtime (normalize_life ascii_runtime df)
    = normalize_life ascii_runtime df /\
  normalize_lor850 ascii_runtime (normalize_lor850 ascii_runtime df)
    = normalize_lor850 ascii_runtime df /\
  normalize_jde ascii_runtime (normalize_jde ascii_runtime df)
    = normalize_jde ascii_runtime df.
Proof.
  intros df.
  exact (normalize_idempotent ascii_runtime_lower_laws df).
Defined.

(** ** Sorting *)

Lemma key_leb_total (a b : option Z) : key_leb a b = true \/ key_leb b a = true.
Proof.
  destruct a, b; simpl; auto.
  destruct (Z.leb_spec z z0); [auto|]. right. apply Z.leb_le. lia.
Qed.

Lemma insert_row_perm (key : list cell -> option Z) (r : list cell)
    (l : list (list cell)) :
  Permutation (insert_row key r l) (r :: l).
Proof.
  induction l as [|r' l IH]; simpl; [reflexivity|].
  destruct (key_leb (key r) (key r')); [reflexivity|].
  rewrite IH. apply perm_swap.
Qed.

Lemma insert_row_sorted (key : list cell -> option Z) (r : list cell)
    (l : list (list cell)) :
  Sorted (fun a b => key_leb (key a) (key b) = true) l ->
  Sorted (fun a b => key_leb (key a) (key b) = true) (insert_row key r l).
Proof.
  induction 1 as [|r' l S IH H]; simpl.
  - repeat constructor.
  - destruct (key_leb (key r) (key r')) eqn:E.
    + constructor; [constructor; assumption | constructor; exact E].
    + constructor; [exact IH|].
      assert (E' : key_leb (key r') (key r) = true)
        by (destruct (key_leb_total (key r) (key r')); congruence).
      destruct l as [|r'' l]; simpl.
      * constructor. exact E'.
      * destruct (key_leb (key r) (key r'')); constructor;
          [exact E' | inversion H; assumption].
Qed.

Lemma stable_sort_perm (key : list cell -> option Z) (l : list (list cell)) :
  Permutation (stable_sort key l) l.
Proof.
  induction l as [|r l IH]; simpl; [reflexivity|].
  unfold stable_sort in *. simpl. rewrite insert_row_perm, IH. reflexivity.
Qed.

Lemma stable_sort_sorted (key : list cell -> option Z) (l : list (list cell)) :
  StronglySorted (fun a b => key_leb (key a) (key b) = true)
    (stable_sort key l).
Proof.
  apply Sorted_StronglySorted.
  - intros a b c. destruct (key a), (key b), (key c); simpl;
      try congruence; try reflexivity.
    rewrite !Z.leb_le. lia.
  - induction l as [|r l IH]; [constructor|].
    apply insert_row_sorted. exact IH.
Qed.

(** The ASCII runtime sorts lawfully. *)
Lemma ascii_runtime_sort_laws : sort_laws ascii_runtime.
Proof.
  split; intros key l;
    [apply stable_sort_perm | apply stable_sort_sorted].
Qed.

(** An ascending list is determined by its elements. *)
Lemma sorted_perm_unique (l l' : list Z) :
  StronglySorted Z.le l -> StronglySorted Z.le l' -> Permutation l l' ->
  l = l'.
Proof.
  intros S. revert l'. induction S as [|a l S IH Ha]; intros l' S' P.
  - apply Permutation_nil in P. subst. reflexivity.
  - destruct S' as [|b l' S' Hb].
    + apply Permutation_sym, Permutation_nil in P. discriminate.
    + assert (a = b).
      { assert (In a (b :: l')) as Hin
          by (eapply Permutation_in; [exact P | left; reflexivity]).
        assert (In b (a :: l)) as Hin'
          by (eapply Permutation_in;
              [apply Permutation_sym; exact P | left; reflexivity]).
        rewrite Forall_forall in Ha, Hb.
        destruct Hin as [-> | Hin]; [reflexivity|].
        destruct Hin' as [-> | Hin']; [reflexivity|].
        apply Hb in Hin. apply Ha in Hin'. lia. }
      subst b. f_equal. apply IH; [exact S'|].
      eapply Permutation_cons_inv. exact P.
Qed.

(** ** The BL-Jump rule *)

Lemma all_int_map (l : list cell) :
  Forall (fun c => exists z, c = Int z) l -> l = List.map Int (List.map int_of l).
Proof.
  induction 1 as [|c l [z ->] _ IH]; simpl; [reflexivity|].
  rewrite <- IH. reflexivity.
Qed.

Lemma map_int_of_Int (l : list Z) : List.map int_of (List.map Int l) = l.
Proof.
  rewrite map_map. simpl. apply map_id.
Qed.

Lemma mapM_sort_key_ints (l : list Z) :
  mapM sort_key (List.map Int l) = Ok (List.map Some l).
Proof.
  induction l as [|z l IH]; simpl; [reflexivity|]. rewrite IH. reflexivity.
Qed.

Lemma diff_from_ints (prev : Z) (l : list Z) :
  diff_from (Int prev) (List.map Int l) = Ok (List.map Int (spec_deltas prev l)).
Proof.
  revert prev. induction l as [|z l IH]; intros prev; simpl; [reflexivity|].
  rewrite IH. reflexivity.
Qed.

Lemma sorted_keys_ints (i : nat) (rs : list (list cell)) (zs : list Z) :
  column_at i rs = List.map Int zs ->
  StronglySorted (fun a b => key_leb (key_of i a) (key_of i b) = true) rs ->
  StronglySorted Z.le zs.
Proof.
  revert zs. induction rs as [|r rs IH]; intros [|z zs] E S;
    try discriminate; [constructor|].
  simpl in E. inversion E as [[E1 E2]]. inversion S as [|? ? S' F]; subst.
  constructor; [apply IH; assumption|].
  clear IH S S'. revert zs E2 E. induction F as [|r' rs H F IH];
    intros [|z' zs] E2 E; try discriminate; constructor.
  - simpl in E2. inversion E2 as [[E3 E4]].
    unfold key_of in H. rewrite E1, E3 in H. simpl in H.
    apply Z.leb_le. exact H.
  - simpl in E2. inversion E2. eapply IH; [eassumption|].
    simpl. rewrite E1. f_equal. assumption.
Qed.

Lemma series_diff_ints (l : list Z) :
  series_diff (List.map Int l)
  = Ok match l with
       | [] => []
       | x :: l' => NaN :: List.map Int (spec_deltas x l')
       end.
Proof.
  destruct l as [|z l]; simpl; [reflexivity|].
  rewrite diff_from_ints. reflexivity.
Qed.

Lemma fillna_diff_ints (l : list Z) :
  fillna (Int 0)
    match l with
    | [] => []
    | x :: l' => NaN :: List.map Int (spec_deltas x l')
    end
  = List.map Int (spec_forward_difference l).
Proof.
  destruct l as [|z l]; simpl; [reflexivity|]. f_equal.
  unfold fillna. rewrite map_map. reflexivity.
Qed.

Lemma zip_with_map_l {A B C D} (f : B -> C -> D) (g : A -> B) (l : list A)
    (l' : list C) :
  zip_with f (List.map g l) l' = zip_with (fun a c => f (g a) c) l l'.
Proof.
  revert l'. induction l as [|a l IH]; intros [|c l']; simpl;
    try reflexivity.
  rewrite IH. reflexivity.
Qed.

Lemma cell_at_app_left (l extra : list cell) (i : nat) :
  (i < List.length l)%nat -> cell_at i (l ++ extra) = cell_at i l.
Proof. intros H. unfold cell_at. apply app_nth1. exact H. Qed.

Lemma cell_at_last3 (l : list cell) (x : cell) :
  List.length l = 3%nat -> cell_at 3 (l ++ [x]) = x.
Proof.
  intros H. change 3%nat with (3 + 0)%nat. rewrite <- H.
  apply cell_at_app_right.
Qed.

Lemma saut_bl_rows (rs : list (list cell)) :
  saut_bl (Frame [lit "plant"; lit "ticket#"; lit "delv"; lit "difference"] rs)
  = Ok (Frame [lit "plant"; lit "ticket#"; lit "delv"; lit "difference"]
          (filter (fun r => negb (py_eq (cell_at 3 r) (Int 1))) rs)).
Proof.
  unfold saut_bl, getitem.
  assert (locate
            (Frame [lit "plant"; lit "ticket#"; lit "delv"; lit "difference"]
               rs) (lit "difference") = Ok 3%nat) as -> by reflexivity.
  cbn [bind rows]. rewrite series_ne_column, loc_mask. reflexivity.
Qed.

Section Jump.

Variable rt : runtime.
Hypothesis laws : sort_laws rt.

Variable rs : list (list cell).
Hypothesis numeric : Forall (fun r => exists z, cell_at 2 r = Int z) rs.

Let projection : list (list cell) :=
  List.map (fun r => [cell_at 1 r; cell_at 2 r; cell_at 8 r]) rs.

Let sorted : list (list cell) := sort_values rt (key_of 1) projection.

Lemma projection_shape :
  Forall (fun r => List.length r = 3%nat /\ exists z, cell_at 1 r = Int z)
    projection.
Proof.
  unfold projection. apply Forall_map.
  eapply Forall_impl; [|exact numeric]. intros r [z H]. simpl.
  split; [reflexivity | exists z; exact H].
Qed.

Lemma sorted_shape :
  Forall (fun r => List.length r = 3%nat /\ exists z, cell_at 1 r = Int z)
    sorted.
Proof.
  eapply Permutation_Forall; [|exact projection_shape].
  apply Permutation_sym. apply (sort_permutes laws).
Qed.

Lemma column_ints (l : list (list cell)) :
  Forall (fun r => List.length r = 3%nat /\ exists z, cell_at 1 r = Int z) l ->
  column_at 1 l = List.map Int (List.map int_of (column_at 1 l)).
Proof.
  intros H. apply all_int_map. unfold column_at. apply Forall_map.
  eapply Forall_impl; [|exact H]. intros r [_ E]. exact E.
Qed.

Lemma plant_data_rows :
  plant_data rt (Frame data_life_columns rs)
  = Ok (Frame [lit "plant"; lit "ticket#"; lit "delv"; lit "difference"]
          (zip_with (fun d r => r ++ [Int d])
             (spec_forward_difference (List.map int_of (column_at 1 sorted)))
             sorted)).
Proof.
  unfold plant_data, select.
  assert (mapM (locate (Frame data_life_columns rs))
            [lit "plant"; lit "ticket#"; lit "delv"]
          = Ok [1%nat; 2%nat; 8%nat]) as -> by reflexivity.
  cbn [bind rows]. unfold sort_frame.
  assert (forall l, locate (Frame [lit "plant"; lit "ticket#"; lit "delv"] l)
                      (lit "ticket#") = Ok 1%nat) as L by reflexivity.
  rewrite L. cbn [bind rows columns].
  change (List.map (fun r => List.map (fun i => cell_at i r)
                               [1%nat; 2%nat; 8%nat]) rs) with projection.
  rewrite (column_ints projection_shape), mapM_sort_key_ints.
  cbn [bind]. fold sorted. unfold getitem. rewrite L. cbn [bind rows].
  rewrite (column_ints sorted_shape) at 1.
  rewrite series_diff_ints. cbn [bind]. rewrite fillna_diff_ints.
  unfold setitem. cbn [columns rows].
  assert (position (lit "difference") [lit "plant"; lit "ticket#"; lit "delv"]
          = None) as -> by reflexivity.
  rewrite zip_with_map_l. reflexivity.
Qed.

End Jump.

(** C2, as the specification words it, fails on its own example: with the
    ticket numbers 100, 101, 103, 103, 104 the differences are 0, 1, 2, 0, 1
    and three rows differ from 1, so the flagged rows are not exactly
    two. *)
Lemma saut_bl_two_rows_counterexample :
  ~ (forall (rt : runtime) (rs : list (list cell)),
       sort_laws rt ->
       column_at 2 rs = List.map Int [100; 101; 103; 103; 104]%Z ->
       exists annotated flagged : frame,
         plant_data rt (Frame data_life_columns rs) = Ok annotated /\
         saut_bl annotated = Ok flagged /\
         List.length (rows flagged) = 2%nat).
Proof.
  intros H.
  pose (ticket := fun z : Z =>
    [Date 0; Str (lit "P1"); Int z; NaN; NaN; NaN; NaN; NaN; Str (lit "Y");
     NaN; NaN; NaN; NaN]).
  destruct (H ascii_runtime
              (List.map ticket [100; 101; 103; 103; 104]%Z)
              ascii_runtime_sort_laws eq_refl)
    as (annotated & flagged & P & S & L).
  vm_compute in P. inversion P; subst annotated; clear P.
  vm_compute in S. inversion S; subst flagged; clear S.
  discriminate L.
Qed.

(** C2, amended: the (plant, ticket#, delv) projection is sorted by ticket#
    ascending, each row gets the difference of its ticket# with the one
    before, 0 on the first row, and exactly the rows whose difference is
    not 1 are flagged; for the ticket numbers 100, 101, 103, 103, 104 the
    differences are 0, 1, 2, 0, 1 and three rows are flagged: the first
    (difference 0), the first 103 (difference 2) and the second 103
    (difference 0). *)
Theorem saut_bl_spec (rt : runtime) (laws : sort_laws rt)
    (rs : list (list cell)) :
  Forall (fun r => exists z, cell_at 2 r = Int z) rs ->
  exists (sorted : list (list cell)) (tickets : list Z),
    let annotated :=
      zip_with (fun d r => r ++ [Int d]) (spec_forward_difference tickets)
        sorted in
    let cols := [lit "plant"; lit "ticket#"; lit "delv"; lit "difference"] in
    Permutation sorted
      (List.map (fun r => [cell_at 1 r; cell_at 2 r; cell_at 8 r]) rs) /\
    column_at 1 sorted = List.map Int tickets /\
    StronglySorted Z.le tickets /\
    plant_data rt (Frame data_life_columns rs) = Ok (Frame cols annotated) /\
    exists flagged : list (list cell),
      saut_bl (Frame cols annotated) = Ok (Frame cols flagged) /\
      (forall r, In r flagged <-> In r annotated /\ cell_at 3 r <> Int 1) /\
      (column_at 2 rs = List.map Int [100; 101; 103; 103; 104]%Z ->
       tickets = [100; 101; 103; 103; 104]%Z /\
       column_at 3 annotated = List.map Int [0; 1; 2; 0; 1]%Z /\
       column_at 1 flagged = List.map Int [100; 103; 103]%Z /\
       column_at 3 flagged = List.map Int [0; 2; 0]%Z).
Proof.
  intros numeric.
  set (projection :=
         List.map (fun r => [cell_at 1 r; cell_at 2 r; cell_at 8 r]) rs).
  set (sorted := sort_values rt (key_of 1) projection).
  set (tickets := List.map int_of (column_at 1 sorted)).
  assert (shape : Forall (fun r => List.length r = 3%nat /\
                                   exists z, cell_at 1 r = Int z) sorted)
    by (apply sorted_shape; assumption).
  assert (col : column_at 1 sorted = List.map Int tickets)
    by (apply column_ints; exact shape).
  assert (perm : Permutation sorted projection)
    by (apply (sort_permutes laws)).
  assert (asc : StronglySorted Z.le tickets).
  { apply sorted_keys_ints with (i := 1%nat) (rs := sorted); [exact col|].
    apply (sort_orders laws). }
  exists sorted, tickets. cbv zeta.
  split; [exact perm | split; [exact col | split; [exact asc|]]].
  split; [apply plant_data_rows; assumption|].
  eexists. split; [apply saut_bl_rows|].
  set (annotated := zip_with (fun d r => r ++ [Int d])
                      (spec_forward_difference tickets) sorted).
  assert (diffs : Forall (fun r => exists d, cell_at 3 r = Int d) annotated).
  { unfold annotated. generalize (spec_forward_difference tickets).
    clear -shape. induction shape as [|r l [Hr _] _ IH]; intros [|d ds];
      simpl; constructor.
    - exists d. apply cell_at_last3. exact Hr.
    - apply IH. }
  split.
  - intros r. rewrite filter_In. rewrite Forall_forall in diffs.
    split; intros [Hin Hr]; (split; [exact Hin|]);
      destruct (diffs r Hin) as [d Hd]; rewrite Hd in *; simpl in *.
    + intros E. inversion E; subst. discriminate Hr.
    + apply negb_true_iff. apply Z.eqb_neq. intros ->. apply Hr. reflexivity.
  - intros example.
    assert (tickets = [100; 101; 103; 103; 104]%Z) as T.
    { apply sorted_perm_unique; [exact asc | |].
      - repeat constructor; lia.
      - rewrite <- (map_int_of_Int [100; 101; 103; 103; 104]%Z).
        unfold tickets. apply Permutation_map. rewrite <- example.
        unfold column_at.
        replace (List.map (cell_at 2) rs)
          with (List.map (cell_at 1) projection)
          by (unfold projection; rewrite map_map; reflexivity).
        apply Permutation_map. exact perm. }
    split; [exact T|].
    unfold annotated. rewrite T in *. clear T asc perm.
    destruct sorted as [|s1 [|s2 [|s3 [|s4 [|s5 [|s6 rest]]]]]];
      try discriminate col.
    inversion shape as [|? ? [L1 _] sh1]; subst.
    inversion sh1 as [|? ? [L2 _] sh2]; subst.
    inversion sh2 as [|? ? [L3 _] sh3]; subst.
    inversion sh3 as [|? ? [L4 _] sh4]; subst.
    inversion sh4 as [|? ? [L5 _] sh5]; subst.
    simpl in col. inversion col as [[C1 C2 C3 C4 C5]].
    cbn [spec_forward_difference spec_deltas zip_with column_at List.map
           filter].
    rewrite !cell_at_last3 by assumption. simpl py_eq.
    cbn [negb List.map]. rewrite !cell_at_last3 by assumption.
    rewrite !cell_at_app_left by lia.
    rewrite C1, C4, C3. repeat split; reflexivity.
Qed.

(** C2 on five tickets given out of order. *)
Lemma saut_bl_spec_witness :
  let ticket := fun z : Z =>
    [Date 0; Str (lit "P1"); Int z; NaN; NaN; NaN; NaN; NaN; Str (lit "Y");
     NaN; NaN; NaN; NaN] in
  let rs := List.map ticket [103; 100; 104; 101; 103]%Z in
  exists (sorted : list (list cell)) (tickets : list Z),
    let annotated :=
      zip_with (fun d r => r ++ [Int d]) (spec_forward_difference tickets)
        sorted in
    let cols := [lit "plant"; lit "ticket#"; lit "delv"; lit "difference"] in
    Permutation sorted
      (List.map (fun r => [cell_at 1 r; cell_at 2 r; cell_at 8 r]) rs) /\
    column_at 1 sorted = List.map Int tickets /\
    StronglySorted Z.le tickets /\
    plant_data ascii_runtime (Frame data_life_columns rs)
      = Ok (Frame cols annotated) /\
    exists flagged : list (list cell),
      saut_bl (Frame cols annotated) = Ok (Frame cols flagged) /\
      (forall r, In r flagged <-> In r annotated /\ cell_at 3 r <> Int 1) /\
      (column_at 2 rs = List.map Int [100; 101; 103; 103; 104]%Z ->
       tickets = [100; 101; 103; 103; 104]%Z /\
       column_at 3 annotated = List.map Int [0; 1; 2; 0; 1]%Z /\
       column_at 1 flagged = List.map Int [100; 103; 103]%Z /\
       column_at 3 flagged = List.map Int [0; 2; 0]%Z).
Proof.
  intros ticket rs.
  apply (saut_bl_spec ascii_runtime_sort_laws).
  repeat constructor; eexists; reflexivity.
Defined.

(** ** The valid-bl column *)

Lemma mapM_total {A B} (f : A -> result B) (l : list A) :
  (forall a, exists b, f a = Ok b) ->
  exists bs, mapM f l = Ok bs /\ Forall2 (fun a b => f a = Ok b) l bs.
Proof.
  intros total. induction l as [|a l (bs & E & F)]; simpl.
  - exists []. split; [reflexivity | constructor].
  - destruct (total a) as [b Hb]. exists (b :: bs). rewrite Hb, E.
    split; [reflexivity | constructor; assumption].
Qed.

Lemma mapM_length {A B} (f : A -> result B) (l : list A) (bs : list B) :
  mapM f l = Ok bs -> List.length bs = List.length l.
Proof.
  revert bs. induction l as [|a l IH]; simpl; intros bs H.
  - inversion H. reflexivity.
  - destruct (f a); [|discriminate H]. simpl in H.
    destruct (mapM f l) eqn:E; [|discriminate H]. simpl in H.
    inversion H. simpl. f_equal. apply IH. reflexivity.
Qed.

(** A selection that succeeds has the labels asked for, and rows as wide
    as the list of labels. *)
Lemma select_shape (df f : frame) (names : list pystr) :
  select df names = Ok f ->
  columns f = names /\
  Forall (fun r => List.length r = List.length names) (rows f).
Proof.
  unfold select. destruct (mapM (locate df) names) as [idx|] eqn:E;
    [|discriminate]. simpl. intros H. inversion H; subst; simpl.
  split; [reflexivity|]. apply Forall_map. apply Forall_forall.
  intros r _. rewrite length_map. apply (mapM_length _ _ E).
Qed.


Lemma zip_with_incl_firstn (valid : list bool) (rs : list (list cell)) :
  forall r, In r (zip_with (fun b r => r ++ [Boolean b]) valid rs) ->
            exists r0 b, In r0 rs /\ r = r0 ++ [Boolean b].
Proof.
  revert valid. induction rs as [|r0 rs IH]; intros [|b valid] r H;
    simpl in H; try contradiction.
  destruct H as [<- | H].
  - exists r0, b. split; [left; reflexivity | reflexivity].
  - destruct (IH _ _ H) as (r1 & b1 & Hin & E).
    exists r1, b1. split; [right; exact Hin | exact E].
Qed.

Lemma set_valid_bl_rows (rt : runtime) (rs : list (list cell)) :
  exists valid : list bool,
    Forall2 (fun r b => validate_bl_number rt (cell_at 5 r) = Ok b) rs valid /\
    set_valid_bl rt (Frame lor850_keep rs)
    = Ok (Frame (lor850_keep ++ [lit "valid bl"])
            (zip_with (fun b r => r ++ [Boolean b]) valid rs)).
Proof.
  destruct (mapM_total (validate_bl_number rt) (column_at 5 rs)
              (validate_bl_number_total rt)) as (valid & E & F).
  exists valid. split.
  - unfold column_at in F. clear E. revert valid F.
    induction rs as [|r rs IH]; intros valid F; inversion F; subst;
      constructor; auto.
  - unfold set_valid_bl, getitem.
    assert (locate (Frame lor850_keep rs) (lit "external ticket/bol")
            = Ok 5%nat) as -> by reflexivity.
    cbn [bind rows]. rewrite E. cbn [bind]. unfold setitem.
    cbn [columns rows].
    assert (position (lit "valid bl") lor850_keep = None) as ->
      by reflexivity.
    rewrite zip_with_map_l. reflexivity.
Qed.

Lemma faux_bl_rows (rt : runtime) (rs : list (list cell)) :
  faux_bl rt (Frame (lor850_keep ++ [lit "valid bl"]) rs)
  = Ok (Frame (lor850_keep ++ [lit "valid bl"])
          (filter (fun r =>
                     match cell_at 3 r with
                     | Str x => re_search rt (alternation faux_bl_materials) x
                     | _ => false
                     end &&
                     py_eq (cell_at 11 r) (Boolean false)) rs)).
Proof.
  unfold faux_bl, getitem.
  assert (locate (Frame (lor850_keep ++ [lit "valid bl"]) rs) (lit "produit")
          = Ok 3%nat) as -> by reflexivity.
  assert (locate (Frame (lor850_keep ++ [lit "valid bl"]) rs) (lit "valid bl")
          = Ok 11%nat) as -> by reflexivity.
  cbn [bind rows].
  rewrite series_eq_column, str_contains_column, loc_mask_and. reflexivity.
Qed.

Ltac bind_inv H :=
  repeat match type of H with
    | bind ?m _ = Ok _ =>
        let E := fresh "E" in
        destruct m eqn:E; [cbn [bind] in H | discriminate H]
    end.



(** ** The export *)


(** * Further properties of the program *)

(** ** Reading columns *)

Lemma position_none (name : pystr) (cols : list pystr) :
  position name cols = None <-> ~ In name cols.
Proof.
  induction cols as [|c cols IH]; simpl; [tauto|].
  destruct (pystr_eqb c name) eqn:E.
  - apply pystr_eqb_eq in E. split; [discriminate | intros H; tauto].
  - assert (c <> name)
      by (intros ->; rewrite pystr_eqb_refl in E; discriminate).
    destruct (position name cols) as [i|].
    + split; [discriminate|]. intros H'.
      assert (Some i = None) as A by (apply IH; tauto). discriminate A.
    + split; [|reflexivity]. intros _ [H' | H']; [tauto|].
      apply (proj1 IH eq_refl). exact H'.
Qed.

Lemma position_some (name : pystr) (cols : list pystr) (i : nat) :
  position name cols = Some i -> nth_error cols i = Some name.
Proof.
  revert i. induction cols as [|c cols IH]; simpl; intros i; [discriminate|].
  destruct (pystr_eqb c name) eqn:E.
  - apply pystr_eqb_eq in E. intros H. inversion H. subst. reflexivity.
  - destruct (position name cols); [|discriminate].
    intros H. inversion H. simpl. apply IH. reflexivity.
Qed.

Lemma locate_cases (df : frame) (name : pystr) :
  (exists i, locate df name = Ok i /\ nth_error (columns df) i = Some name /\
             In name (columns df)) \/
  (locate df name = Raise KeyError /\ ~ In name (columns df)).
Proof.
  unfold locate. destruct (position name (columns df)) as [i|] eqn:E.
  - left. exists i. split; [reflexivity|].
    pose proof (position_some _ _ E) as H. split; [exact H|].
    eapply nth_error_In. exact H.
  - right. split; [reflexivity | apply position_none; exact E].
Qed.


Lemma mapM_locate (df : frame) (names : list pystr) :
  (exists idx, mapM (locate df) names = Ok idx /\
               Forall2 (fun name i => nth_error (columns df) i = Some name)
                 names idx /\
               Forall (fun name => In name (columns df)) names) \/
  (mapM (locate df) names = Raise KeyError /\ missing names (columns df)).
Proof.
  induction names as [|name names IH]; simpl.
  - left. exists []. repeat split; constructor.
  - destruct (locate_cases df name) as [(i & E & N & H) | [E H]]; rewrite E;
      simpl.
    + destruct IH as [(idx & E' & F & A) | [E' (m & Hm & Hn)]]; rewrite E';
        simpl.
      * left. exists (i :: idx). repeat split; constructor; assumption.
      * right. split; [reflexivity|]. exists m. split; [right|]; assumption.
    + right. split; [reflexivity|]. exists name. split; [left; reflexivity|].
      exact H.
Qed.

(** X1: selecting a list of labels (lines 105, 109, 113) raises KeyError
    exactly when one of the labels is not a label of the table, and raises
    nothing else; when it succeeds on a table whose labels are distinct (so
    that a label names one column), the result has exactly the labels asked
    for, one row per row of the table in the same order, and each row holds
    the cells of the named columns. *)
Theorem select_spec (df : frame) (names : list pystr) :
  (select df names = Raise KeyError <-> missing names (columns df)) /\
  (forall e, select df names = Raise e -> e = KeyError) /\
  (forall f, NoDup (columns df) -> select df names = Ok f ->
     columns f = names /\
     List.length (rows f) = List.length (rows df) /\
     exists idx,
       Forall2 (fun name i => nth_error (columns df) i = Some name)
         names idx /\
       rows f = List.map (fun r => List.map (fun i => cell_at i r) idx)
                  (rows df)).
Proof.
  unfold select.
  destruct (mapM_locate df names) as [(idx & E & F & A) | [E M]]; rewrite E;
    simpl.
  - split; [| split].
    + split; [discriminate|]. intros (m & Hm & Hn).
      rewrite Forall_forall in A. elim Hn. apply A. exact Hm.
    + discriminate.
    + intros f _ H. inversion H; subst; simpl.
      split; [reflexivity|]. split; [apply length_map|].
      exists idx. split; [exact F | reflexivity].
  - split; [tauto|]. split; [|intros f _; discriminate].
    intros e H. inversion H. reflexivity.
Qed.

(** ** The filter rules on any table *)

Lemma mask_rows_subseq (mask : list bool) (rs : list (list cell)) :
  subseq (mask_rows mask rs) rs.
Proof.
  revert mask. induction rs as [|r rs IH]; intros [|b mask]; simpl.
  - constructor.
  - constructor.
  - constructor. apply (IH []).
  - destruct b; constructor; apply IH.
Qed.

Ltac rule_rows H :=
  bind_inv H; inversion H; subst; simpl;
  split; [reflexivity | apply mask_rows_subseq].

(** X2: none of the nine filter rules (lines 116, 123, 126, 129-132, 136,
    137, 140, 142-143, 159) makes up or reorders rows: whenever a rule
    returns a table, on any input table with distinct labels, the result
    has the labels of its input and its rows are rows of the input, in the
    order of the input. *)
Theorem filter_rules_keep_rows (rt : runtime) (df f : frame) :
  NoDup (columns df) ->
  prechargement rt df = Ok f \/ saut_bl df = Ok f \/
  faulty_pickup df = Ok f \/ data_jde_filtered df = Ok f \/
  merged_data_filtered df = Ok f \/ staut_suivant_565 df = Ok f \/
  trans_tmp df = Ok f \/ trans_fic rt df = Ok f \/ faux_bl rt df = Ok f ->
  columns f = columns df /\ subseq (rows f) (rows df).
Proof.
  intros _ [H | [H | [H | [H | [H | [H | [H | [H | H]]]]]]]].
  - unfold prechargement in H. rule_rows H.
  - unfold saut_bl in H. rule_rows H.
  - unfold faulty_pickup in H. rule_rows H.
  - unfold data_jde_filtered in H. rule_rows H.
  - unfold merged_data_filtered in H. rule_rows H.
  - unfold staut_suivant_565 in H. rule_rows H.
  - unfold trans_tmp in H. rule_rows H.
  - unfold trans_fic in H. rule_rows H.
  - unfold faux_bl in H. rule_rows H.
Qed.

Ltac distinct_labels :=
  repeat (constructor; [vm_compute; intuition discriminate|]); constructor.

(** X2 on the receipts of the sample run. *)
Lemma filter_rules_keep_rows_witness :
  let lor850 := Frame lor850_keep (rows sample_lor850) in
  let f := Frame lor850_keep [nth 0 (rows sample_lor850) []] in
  columns f = columns lor850 /\ subseq (rows f) (rows lor850).
Proof.
  intros lor850 f.
  apply (@filter_rules_keep_rows ascii_runtime lor850 f).
  - cbn [columns lor850]. distinct_labels.
  - do 7 right. left. vm_compute. reflexivity.
Defined.


(** ** Text rules on the selected tables *)

Lemma prechargement_rows (rt : runtime) (rs : list (list cell)) :
  prechargement rt (Frame data_life_columns rs)
  = Ok (Frame data_life_columns
          (filter (fun r => match cell_at 4 r with
                            | Str x => str_in (lit "PRECHARGEMENT") x
                            | _ => false
                            end) rs)).
Proof.
  unfold prechargement, getitem.
  assert (locate (Frame data_life_columns rs) (lit "vendor") = Ok 4%nat)
    as -> by reflexivity.
  cbn [bind rows]. rewrite str_contains_column, loc_mask.
  do 2 f_equal. apply filter_ext. intros r.
  destruct (cell_at 4 r); try reflexivity. apply search_word.
Qed.


(** ** The invalid-BL table *)










(** ** The status views *)

Lemma merged_data_filtered_rows (ms : list (list cell)) :
  merged_data_filtered
    (Frame (data_life_columns ++ [n_exped; lit "statut suivant"]) ms)
  = Ok (Frame (data_life_columns ++ [n_exped; lit "statut suivant"])
          (filter (fun m => negb (py_eq (cell_at 14 m) (Int 999))) ms)).
Proof.
  unfold merged_data_filtered, getitem.
  assert (locate
            (Frame (data_life_columns ++ [n_exped; lit "statut suivant"]) ms)
            (lit "statut suivant") = Ok 14%nat) as -> by reflexivity.
  cbn [bind rows]. rewrite series_ne_column, loc_mask. reflexivity.
Qed.

(** X7: the two views of the status join (lines 136-137): the view without
    the 999 rows keeps exactly the joined rows whose statut suivant is not
    999, so it keeps the tickets that found no status row; every row of
    the 565 view is a row of it; a ticket without status is never in the
    565 view. *)
Theorem status_views (ms : list (list cell)) :
  exists v f : list (list cell),
    staut_suivant_565
      (Frame (data_life_columns ++ [n_exped; lit "statut suivant"]) ms)
    = Ok (Frame (data_life_columns ++ [n_exped; lit "statut suivant"]) v) /\
    merged_data_filtered
      (Frame (data_life_columns ++ [n_exped; lit "statut suivant"]) ms)
    = Ok (Frame (data_life_columns ++ [n_exped; lit "statut suivant"]) f) /\
    (forall r, In r f <-> In r ms /\ cell_at 14 r <> Int 999) /\
    (forall r, In r v -> In r f) /\
    (forall r, In r ms -> cell_at 14 r = NaN -> In r f /\ ~ In r v).
Proof.
  eexists; eexists.
  split; [apply staut_suivant_565_rows|].
  split; [apply merged_data_filtered_rows|].
  assert (Kf : forall r,
             In r (filter (fun m => negb (py_eq (cell_at 14 m) (Int 999))) ms)
             <-> In r ms /\ cell_at 14 r <> Int 999).
  { intros r. rewrite filter_In, negb_true_iff, <- not_true_iff_false.
    rewrite py_eq_Int_big by lia. tauto. }
  assert (Kv : forall r,
             In r (filter (fun m => py_eq (cell_at 14 m) (Int 565)) ms)
             <-> In r ms /\ cell_at 14 r = Int 565).
  { intros r. rewrite filter_In, py_eq_Int_big by lia. tauto. }
  split; [exact Kf|]. split.
  - intros r H. apply Kv in H. apply Kf. destruct H as [H E].
    split; [exact H|]. rewrite E. discriminate.
  - intros r H E. split.
    + apply Kf. split; [exact H|]. rewrite E. discriminate.
    + intros H'. apply Kv in H'. destruct H' as [_ E']. congruence.
Qed.

(** ** The left join *)




(** ** The shape of a valid BL identifier *)

Lemma split_nonempty (sep : N) (s : pystr) : split sep s <> [].
Proof.
  destruct s as [|c t]; simpl; [discriminate|].
  destruct (c =? sep); [discriminate|].
  destruct (split sep t); discriminate.
Qed.

(** Joining the parts of a split gives the text back. *)
Lemma join_split (sep : N) (s : pystr) : join sep (split sep s) = s.
Proof.
  induction s as [|c t IH]; simpl; [reflexivity|].
  destruct (c =? sep) eqn:E.
  - apply N.eqb_eq in E. subst c.
    pose proof (split_nonempty sep t) as NE.
    destruct (split sep t) as [|p ps]; [contradiction|].
    cbn [join app]. cbn [join] in IH. rewrite IH. reflexivity.
  - pose proof (split_nonempty sep t) as NE.
    destruct (split sep t) as [|p ps]; [contradiction|].
    destruct ps as [|q ps]; cbn [join app] in *; rewrite IH; reflexivity.
Qed.

Lemma split_parts_clean (sep : N) (s : pystr) :
  Forall (fun p => ~ In sep p) (split sep s).
Proof.
  induction s as [|c t IH]; simpl.
  - constructor; [intros [] | constructor].
  - destruct (c =? sep) eqn:E.
    + constructor; [intros [] | exact IH].
    + apply N.eqb_neq in E.
      destruct (split sep t) as [|p ps]; [repeat constructor; intros [H|[]]; auto|].
      inversion IH; subst. constructor; [|assumption].
      intros [H | H]; [auto | contradiction].
Qed.

Lemma split_clean_prefix (sep : N) (a rest : pystr) :
  ~ In sep a ->
  split sep (a ++ sep :: rest) = a :: split sep rest.
Proof.
  induction a as [|c a IH]; intros clean; simpl.
  - rewrite N.eqb_refl. reflexivity.
  - assert (c <> sep) as Hc by (intros ->; apply clean; left; reflexivity).
    apply N.eqb_neq in Hc. rewrite Hc, IH; [reflexivity|].
    intros H. apply clean. right. exact H.
Qed.

Lemma split_clean (sep : N) (a : pystr) : ~ In sep a -> split sep a = [a].
Proof.
  intros clean. apply split_no_sep. apply Forall_forall.
  intros c H ->. exact (clean H).
Qed.

(** A text splits in two exactly when it is two parts free of the
    separator around one separator. *)
Lemma split_two (sep : N) (s a b : pystr) :
  split sep s = [a; b] <->
  s = a ++ sep :: b /\ ~ In sep a /\ ~ In sep b.
Proof.
  split.
  - intros H. pose proof (join_split sep s) as J.
    pose proof (split_parts_clean sep s) as C. rewrite H in J, C.
    cbn [join] in J.
    inversion C as [|? ? Ca C']. inversion C' as [|? ? Cb _]. auto.
  - intros (-> & Ca & Cb).
    rewrite split_clean_prefix by exact Ca. rewrite split_clean by exact Cb.
    reflexivity.
Qed.

Lemma count_clean (sep : N) (a : pystr) :
  ~ In sep a -> count_occ N.eq_dec a sep = 0%nat.
Proof. intros H. apply count_occ_not_In. exact H. Qed.

(** X9: a text is a valid BL identifier exactly when it is a prefix
    without "-", one "-", then one of 3, 4, 7 and five digits; the prefix
    is never looked at otherwise (it may be empty), nothing may follow the
    six digits, and a valid text holds exactly one "-". *)
Theorem validate_bl_number_shape (rt : runtime) (s : pystr) :
  (validate_bl_number rt (Str s) = Ok true <->
   exists (prefix : pystr) (c : N) (ds : pystr),
     s = prefix ++ 45 :: c :: ds /\ ~ In 45 prefix /\
     In c (lit "347") /\ List.length ds = 5%nat /\
     Forall (fun d => is_digit rt d = true) ds) /\
  (validate_bl_number rt (Str s) = Ok true ->
   count_occ N.eq_dec s 45 = 1%nat /\
   exists prefix, List.length s = (List.length prefix + 7)%nat /\
                  firstn (List.length prefix) s = prefix /\
                  ~ In 45 prefix).
Proof.
  assert (code_clean : forall c ds,
             In c (lit "347") ->
             Forall (fun d => is_digit rt d = true) ds -> ~ In 45 (c :: ds)).
  { intros c ds Hc Hds [H | H].
    - subst c. simpl in Hc.
      destruct Hc as [H | [H | [H | []]]]; discriminate H.
    - rewrite Forall_forall in Hds. apply Hds in H. discriminate H. }
  assert (shape : validate_bl_number rt (Str s) = Ok true <->
     exists (prefix : pystr) (c : N) (ds : pystr),
       s = prefix ++ 45 :: c :: ds /\ ~ In 45 prefix /\
       In c (lit "347") /\ List.length ds = 5%nat /\
       Forall (fun d => is_digit rt d = true) ds).
  { rewrite validate_bl_number_true. cbn [isna py_str]. split.
    - intros [_ (prefix & code & S & c & ds & -> & Hc & L & D)].
      apply split_two in S. destruct S as (-> & Ca & _).
      exists prefix, c, ds. auto.
    - intros (prefix & c & ds & -> & Ca & Hc & L & D).
      split; [reflexivity|]. exists prefix, (c :: ds). split.
      + apply split_two. split; [reflexivity|]. split; [exact Ca|].
        apply code_clean; assumption.
      + exists c, ds. auto. }
  split; [exact shape|].
  intros H. apply shape in H.
  destruct H as (prefix & c & ds & -> & Ca & Hc & L & D). split.
  - rewrite count_occ_app, count_clean by exact Ca.
    rewrite count_occ_cons_eq by reflexivity.
    rewrite count_clean by (apply code_clean; assumption). reflexivity.
  - exists prefix. split; [|split; [rewrite firstn_app, firstn_all, Nat.sub_diag; simpl; apply app_nil_r | exact Ca]].
    rewrite length_app. simpl. lia.
Qed.

(** ** Cells that are not texts *)

Lemma uint_str_clean (d : Decimal.uint) : ~ In 45 (uint_str d).
Proof.
  induction d; simpl; try (intros [H | H]; [discriminate H | auto]).
  intros [].
Qed.

(** X10: a BL cell holding a non-negative whole number, or a boolean, is
    never valid: its text has no "-" to split on.  So a BL identifier typed
    into the sheet as the bare number 312345 is reported as invalid. *)
Theorem validate_bl_number_scalars (rt : runtime) :
  (forall z : Z, (0 <= z)%Z -> validate_bl_number rt (Int z) = Ok false) /\
  (forall b : bool, validate_bl_number rt (Boolean b) = Ok false).
Proof.
  split.
  - intros z Hz. rewrite validate_bl_number_cases. cbn [isna py_str].
    assert (~ In 45 (int_str z)) as clean.
    { unfold int_str. destruct z as [|p|p]; [| |lia]; simpl.
      - intros [H | []]. discriminate H.
      - apply uint_str_clean. }
    rewrite split_clean by exact clean. reflexivity.
  - intros [|]; reflexivity.
Qed.

(** X10 on the number 312345. *)
Lemma validate_bl_number_scalars_witness :
  validate_bl_number ascii_runtime (Int 312345) = Ok false.
Proof.
  apply (proj1 (validate_bl_number_scalars ascii_runtime)). lia.
Defined.

(** ** The date sort *)

Lemma zip_with_length {A B C} (f : A -> B -> C) (l : list A) (l' : list B) :
  List.length l = List.length l' ->
  List.length (zip_with f l l') = List.length l'.
Proof.
  revert l'. induction l as [|a l IH]; intros [|b l'] H; simpl in *;
    try discriminate; [reflexivity|].
  f_equal. apply IH. lia.
Qed.

Lemma sort_by_ticket_date_rows (rt : runtime) (rs : list (list cell))
    (f : frame) :
  sort_by_ticket_date rt (Frame data_life_columns rs) = Ok f ->
  exists stamps,
    mapM (to_datetime rt) (column_at 0 rs) = Ok stamps /\
    f = Frame data_life_columns
          (sort_values rt (key_of 0) (zip_with (replace_at 0) stamps rs)).
Proof.
  unfold sort_by_ticket_date, getitem.
  assert (forall l, locate (Frame data_life_columns l) (lit "ticket date")
                    = Ok 0%nat) as L by reflexivity.
  rewrite L. cbn [bind rows]. intros H.
  destruct (mapM (to_datetime rt) (column_at 0 rs)) as [stamps|] eqn:E;
    [|discriminate H].
  cbn [bind] in H. exists stamps. split; [reflexivity|].
  unfold setitem in H. cbn [columns rows] in H.
  assert (position (lit "ticket date") data_life_columns = Some 0%nat) as P
    by reflexivity.
  rewrite P in H. unfold sort_frame in H. rewrite L in H.
  cbn [bind rows columns] in H.
  destruct (mapM sort_key _); [|discriminate H].
  cbn [bind] in H. inversion H. reflexivity.
Qed.

(** X11: lines 119-120 keep the ticket table as it is but for the dates
    and the order: when the step succeeds the labels are unchanged, every
    ticket date has been turned into a timestamp (or stays missing), the
    rows are the tickets with their new dates, all of them and no other,
    ordered by date with the missing dates last. *)
Theorem sort_by_ticket_date_spec (rt : runtime) (laws : sort_laws rt)
    (rs : list (list cell)) (f : frame) :
  sort_by_ticket_date rt (Frame data_life_columns rs) = Ok f ->
  columns f = data_life_columns /\
  List.length (rows f) = List.length rs /\
  exists stamps,
    mapM (to_datetime rt) (column_at 0 rs) = Ok stamps /\
    Forall (fun c => c = NaN \/ exists t, c = Date t) stamps /\
    Permutation (rows f) (zip_with (replace_at 0) stamps rs) /\
    StronglySorted (fun a b => key_leb (key_of 0 a) (key_of 0 b) = true)
      (rows f).
Proof.
  intros H. destruct (sort_by_ticket_date_rows _ _ H) as (stamps & E & ->).
  cbn [columns rows]. split; [reflexivity|].
  pose proof (sort_permutes laws (key_of 0)
                (zip_with (replace_at 0) stamps rs)) as P.
  split.
  - rewrite (Permutation_length P). apply zip_with_length.
    rewrite (mapM_length _ _ E). unfold column_at. apply length_map.
  - exists stamps. split; [exact E|]. split; [|split].
    + clear -E. revert stamps E.
      induction (column_at 0 rs) as [|c l IH]; simpl; intros stamps E.
      * inversion E. constructor.
      * destruct (to_datetime rt c) as [d|] eqn:D; [|discriminate E].
        simpl in E. destruct (mapM (to_datetime rt) l) as [ds|];
          [|discriminate E].
        simpl in E. inversion E; subst. constructor; [|apply IH; reflexivity].
        destruct c as [|s|z|b|t]; simpl in D.
        -- inversion D. left. reflexivity.
        -- destruct (parse_datetime rt s); inversion D. right. eauto.
        -- inversion D. right. eauto.
        -- discriminate D.
        -- inversion D. right. eauto.
    + exact P.
    + apply (sort_orders laws).
Qed.

(** X11 on the tickets of the sample run. *)
Lemma sort_by_ticket_date_spec_witness :
  let rs := List.map (firstn 13) (rows sample_lor518) in
  let f := Frame data_life_columns (rev rs) in
  columns f = data_life_columns /\
  List.length (rows f) = List.length rs /\
  exists stamps,
    mapM (to_datetime ascii_runtime) (column_at 0 rs) = Ok stamps /\
    Forall (fun c => c = NaN \/ exists t, c = Date t) stamps /\
    Permutation (rows f) (zip_with (replace_at 0) stamps rs) /\
    StronglySorted (fun a b => key_leb (key_of 0 a) (key_of 0 b) = true)
      (rows f).
Proof.
  intros rs f.
  apply (sort_by_ticket_date_spec ascii_runtime_sort_laws rs).
  vm_compute. reflexivity.
Defined.

(** ** Unbroken runs of ticket numbers *)

Lemma consecutive_cons (z : Z) (n : nat) :
  consecutive z (S n) = z :: consecutive (z + 1) n.
Proof.
  unfold consecutive. simpl. rewrite Z.add_0_r. f_equal.
  rewrite <- seq_shift, map_map. apply map_ext. intros k. lia.
Qed.

Lemma consecutive_lower (z : Z) (n : nat) :
  Forall (fun x => (z <= x)%Z) (consecutive z n).
Proof.
  unfold consecutive. apply Forall_map. apply Forall_forall. intros k _. lia.
Qed.

Lemma consecutive_sorted (z : Z) (n : nat) :
  StronglySorted Z.le (consecutive z n).
Proof.
  revert z. induction n as [|n IH]; intros z; [constructor|].
  rewrite consecutive_cons. constructor; [apply IH|].
  eapply Forall_impl; [|apply consecutive_lower]. intros x. simpl. lia.
Qed.

Lemma spec_deltas_consecutive (z : Z) (n : nat) :
  spec_deltas z (consecutive (z + 1) n) = repeat 1%Z n.
Proof.
  revert z. induction n as [|n IH]; intros z; [reflexivity|].
  rewrite consecutive_cons. simpl. rewrite IH. f_equal. lia.
Qed.

Lemma filter_unit_steps (n : nat) (rs : list (list cell)) :
  Forall (fun r => List.length r = 3%nat) rs ->
  filter (fun r => negb (py_eq (cell_at 3 r) (Int 1)))
    (zip_with (fun d r => r ++ [Int d]) (repeat 1%Z n) rs) = [].
Proof.
  intros shape. revert n. induction shape as [|r rs Hr _ IH]; intros [|n];
    simpl; try reflexivity.
  rewrite cell_at_last3 by exact Hr. simpl. apply IH.
Qed.

(** The sorted projection behind [plant_data], with what is known of it. *)
Lemma plant_data_sorted (rt : runtime) (laws : sort_laws rt)
    (rs : list (list cell)) :
  Forall (fun r => exists z, cell_at 2 r = Int z) rs ->
  exists (sorted : list (list cell)) (tickets : list Z),
    Forall (fun r => List.length r = 3%nat) sorted /\
    column_at 1 sorted = List.map Int tickets /\
    StronglySorted Z.le tickets /\
    Permutation tickets (List.map int_of (column_at 2 rs)) /\
    plant_data rt (Frame data_life_columns rs)
    = Ok (Frame [lit "plant"; lit "ticket#"; lit "delv"; lit "difference"]
            (zip_with (fun d r => r ++ [Int d])
               (spec_forward_difference tickets) sorted)).
Proof.
  intros numeric.
  set (projection :=
         List.map (fun r => [cell_at 1 r; cell_at 2 r; cell_at 8 r]) rs).
  set (sorted := sort_values rt (key_of 1) projection).
  pose proof (sorted_shape laws numeric) as shape. fold projection in shape.
  fold sorted in shape.
  exists sorted, (List.map int_of (column_at 1 sorted)).
  split; [eapply Forall_impl; [|exact shape]; intros r [H _]; exact H|].
  split; [apply column_ints; exact shape|].
  split; [apply sorted_keys_ints with (i := 1%nat) (rs := sorted);
          [apply column_ints; exact shape | apply (sort_orders laws)]|].
  split; [|apply plant_data_rows; assumption].
  apply Permutation_map. unfold column_at.
  replace (List.map (cell_at 2) rs) with (List.map (cell_at 1) projection)
    by (unfold projection; rewrite map_map; reflexivity).
  apply Permutation_map. apply (sort_permutes laws).
Qed.

(** X12: on a ticket table with at least one ticket and whole ticket
    numbers, the first flagged row of the BL-jump table is always the
    ticket with the smallest number, with difference 0: the table is never
    empty.  When the ticket numbers are an unbroken run z, z+1, ..., in any
    order and without repeats, that row is the only one flagged. *)
Theorem saut_bl_first_row (rt : runtime) (laws : sort_laws rt)
    (rs : list (list cell)) :
  Forall (fun r => exists z, cell_at 2 r = Int z) rs ->
  rs <> [] ->
  exists (plant : frame) (first : list cell) (rest : list (list cell))
         (lowest : Z),
    plant_data rt (Frame data_life_columns rs) = Ok plant /\
    saut_bl plant
    = Ok (Frame [lit "plant"; lit "ticket#"; lit "delv"; lit "difference"]
            (first :: rest)) /\
    cell_at 1 first = Int lowest /\
    cell_at 3 first = Int 0 /\
    (forall r z, In r rs -> cell_at 2 r = Int z -> (lowest <= z)%Z) /\
    (forall z n, Permutation (List.map int_of (column_at 2 rs))
                   (consecutive z n) ->
                 rest = [] /\ lowest = z).
Proof.
  intros numeric nonempty.
  destruct (plant_data_sorted laws numeric)
    as (sorted & tickets & shape & col & asc & perm & E).
  assert (tickets <> []) as NE.
  { intros ->. apply Permutation_nil in perm.
    destruct rs; [contradiction | discriminate perm]. }
  destruct tickets as [|t1 tickets]; [contradiction|].
  destruct sorted as [|s1 sorted]; [discriminate col|].
  simpl in col. inversion col as [[C1 C2]].
  inversion shape as [|? ? L1 shape']; subst.
  eexists; exists (s1 ++ [Int 0]); eexists; exists t1.
  split; [exact E|]. rewrite saut_bl_rows.
  cbn [spec_forward_difference zip_with filter].
  rewrite cell_at_last3 by exact L1. simpl py_eq. cbn [negb].
  split; [reflexivity|].
  split; [rewrite cell_at_app_left by lia; exact C1|].
  split; [reflexivity|].
  split.
  - intros r z Hr Hz.
    assert (In z (t1 :: tickets)) as Hin.
    { eapply Permutation_in; [apply Permutation_sym; exact perm|].
      unfold column_at. rewrite map_map. apply in_map_iff.
      exists r. rewrite Hz. auto. }
    destruct Hin as [<- | Hin]; [lia|].
    inversion asc as [|? ? _ low]; subst. rewrite Forall_forall in low.
    apply low. exact Hin.
  - intros z n run.
    assert (t1 :: tickets = consecutive z n) as T.
    { apply sorted_perm_unique;
        [exact asc | apply consecutive_sorted|].
      eapply Permutation_trans; [exact perm | exact run]. }
    destruct n as [|n]; [discriminate T|].
    rewrite consecutive_cons in T. inversion T; subst.
    rewrite spec_deltas_consecutive.
    split; [apply filter_unit_steps; exact shape' | reflexivity].
Qed.

(** X12 on the run 100, 101, 102 given out of order. *)
Lemma saut_bl_first_row_witness :
  let ticket := fun z : Z =>
    [Date 0; Str (lit "P1"); Int z; NaN; NaN; NaN; NaN; NaN; Str (lit "Y");
     NaN; NaN; NaN; NaN] in
  let rs := List.map ticket [101; 100; 102]%Z in
  exists (plant : frame) (first : list cell) (rest : list (list cell))
         (lowest : Z),
    plant_data ascii_runtime (Frame data_life_columns rs) = Ok plant /\
    saut_bl plant
    = Ok (Frame [lit "plant"; lit "ticket#"; lit "delv"; lit "difference"]
            (first :: rest)) /\
    cell_at 1 first = Int lowest /\
    cell_at 3 first = Int 0 /\
    (forall r z, In r rs -> cell_at 2 r = Int z -> (lowest <= z)%Z) /\
    (forall z n, Permutation (List.map int_of (column_at 2 rs))
                   (consecutive z n) ->
                 rest = [] /\ lowest = z).
Proof.
  intros ticket rs.
  apply (saut_bl_first_row ascii_runtime_sort_laws).
  - repeat constructor; eexists; reflexivity.
  - discriminate.
Defined.

(** ** The whole run *)

Lemma select_cases (df : frame) (names : list pystr) :
  (exists f, select df names = Ok f /\
             Forall (fun name => In name (columns df)) names) \/
  (select df names = Raise KeyError /\ missing names (columns df)).
Proof.
  unfold select.
  destruct (mapM_locate df names) as [(idx & E & _ & A) | [E M]]; rewrite E;
    simpl.
  - left. eexists. split; [reflexivity | exact A].
  - right. split; [reflexivity | exact M].
Qed.

Lemma select_rows_length (df f : frame) (names : list pystr) :
  select df names = Ok f -> List.length (rows f) = List.length (rows df).
Proof.
  unfold select. destruct (mapM (locate df) names); [|discriminate].
  simpl. intros H. inversion H. simpl. apply length_map.
Qed.

Lemma normalize_life_frame (rt : runtime) (df : frame) :
  normalize_life rt df
  = Frame (List.map (new_col_life rt) (columns df)) (rows df).
Proof. apply rename_new_columns. Qed.

Lemma normalize_lor850_frame (rt : runtime) (df : frame) :
  normalize_lor850 rt df
  = Frame (List.map (new_col_lor850 rt) (columns df)) (rows df).
Proof. apply rename_new_columns. Qed.

Lemma normalize_jde_frame (rt : runtime) (df : frame) :
  normalize_jde rt df
  = Frame (List.map (new_col_jde rt) (columns df)) (rows df).
Proof. apply rename_new_columns. Qed.

Lemma missing_not_all (names have : list pystr) :
  missing names have -> Forall (fun l => In l have) names -> False.
Proof.
  intros (m & Hm & Hn) A. rewrite Forall_forall in A. exact (Hn (A m Hm)).
Qed.

(** X13: a run needs every selected label: when, after normalisation, one
    of the thirteen LOR518 labels, of the eight JDE labels or of the eleven
    LOR850 labels is missing, the run raises KeyError and produces no
    table; a run that returns its tables had all of them. *)
Theorem process_missing_label (rt : runtime) (lor518 lor850_raw jde : frame) :
  (missing data_life_columns
     (List.map (new_col_life rt) (columns lor518)) \/
   missing data_jde_columns (List.map (new_col_jde rt) (columns jde)) \/
   missing lor850_keep
     (List.map (new_col_lor850 rt) (columns lor850_raw)) ->
   process rt lor518 lor850_raw jde = Raise KeyError) /\
  (forall t, process rt lor518 lor850_raw jde = Ok t ->
     Forall (fun l => In l (List.map (new_col_life rt) (columns lor518)))
       data_life_columns /\
     Forall (fun l => In l (List.map (new_col_jde rt) (columns jde)))
       data_jde_columns /\
     Forall (fun l => In l (List.map (new_col_lor850 rt)
                              (columns lor850_raw)))
       lor850_keep).
Proof.
  unfold process.
  rewrite normalize_life_frame, normalize_lor850_frame, normalize_jde_frame.
  cbv zeta.
  destruct (select_cases
              (Frame (List.map (new_col_life rt) (columns lor518))
                 (rows lor518)) data_life_columns)
    as [(a & Ea & Ha) | [Ea Ha]]; rewrite Ea; cbn [bind columns] in *.
  2: { split; [reflexivity|]. discriminate. }
  destruct (select_cases
              (Frame (List.map (new_col_jde rt) (columns jde)) (rows jde))
              data_jde_columns)
    as [(b & Eb & Hb) | [Eb Hb]]; rewrite Eb; cbn [bind columns] in *.
  2: { split; [reflexivity|]. discriminate. }
  destruct (select_cases
              (Frame (List.map (new_col_lor850 rt) (columns lor850_raw))
                 (rows lor850_raw)) lor850_keep)
    as [(c & Ec & Hc) | [Ec Hc]]; rewrite Ec; cbn [bind columns] in *.
  2: { split; [reflexivity|]. discriminate. }
  split.
  - intros [M | [M | M]]; exfalso; eapply missing_not_all; eassumption.
  - intros t _. auto.
Qed.

(** X13 on a ticket export without its Shipment column. *)
Lemma process_missing_label_witness :
  process ascii_runtime
    (Frame [lit "Ticket Date"; lit "Plant"; lit "Ticket#"] [])
    sample_lor850 sample_jde = Raise KeyError.
Proof.
  apply (proj1 (process_missing_label ascii_runtime _ _ _)).
  left. exists (lit "shipment"). split.
  - vm_compute. tauto.
  - vm_compute. intros [H | [H | [H | []]]]; discriminate H.
Defined.

Lemma filter_exclusive_length {A} (p q : A -> bool) (l : list A) :
  (forall x, p x = true -> q x = false) ->
  (List.length (filter p l) + List.length (filter q l) <= List.length l)%nat.
Proof.
  intros excl. induction l as [|a l IH]; simpl; [lia|].
  destruct (p a) eqn:P.
  - rewrite (excl a P). simpl. lia.
  - destruct (q a); simpl; lia.
Qed.

Lemma joined_rows_length {A B} (f : A -> list B) (l : list A) :
  (forall a, f a <> []) ->
  (List.length l <= List.length (flat_map f l))%nat.
Proof.
  intros nonempty. induction l as [|a l IH]; simpl; [lia|].
  rewrite length_app. pose proof (nonempty a) as N.
  destruct (f a); [contradiction|]. simpl. lia.
Qed.

(** X14: the counts a run shows, when the normalised labels of each
    export are distinct: the widened receiving log has as many rows as the
    LOR850 export; the TMP-transporter and faulty-pickup tables together
    are never larger than the LOR518 export, nor is the pre-loading table;
    the status join has at least one row per ticket; the
    fictitious-transporter and invalid-BL tables are no larger than the
    LOR850 export. *)
Theorem process_counts (rt : runtime) (laws : sort_laws rt)
    (lor518 lor850_raw jde : frame) (t : tables) :
  NoDup (List.map (new_col_life rt) (columns lor518)) ->
  NoDup (List.map (new_col_lor850 rt) (columns lor850_raw)) ->
  NoDup (List.map (new_col_jde rt) (columns jde)) ->
  process rt lor518 lor850_raw jde = Ok t ->
  List.length (rows (out_lor850 t)) = List.length (rows lor850_raw) /\
  (List.length (rows (out_trans_tmp t))
   + List.length (rows (out_faulty_pickup t))
   <= List.length (rows lor518))%nat /\
  (List.length (rows (out_prechargement t))
   <= List.length (rows lor518))%nat /\
  (List.length (rows lor518)
   <= List.length (rows (out_merged_data t)))%nat /\
  (List.length (rows (out_trans_fic t))
   <= List.length (rows lor850_raw))%nat /\
  (List.length (rows (out_faux_bl t))
   <= List.length (rows lor850_raw))%nat.
Proof.
  intros _ _ _ H. unfold process in H.
  rewrite normalize_life_frame, normalize_lor850_frame, normalize_jde_frame
    in H.
  cbv zeta in H. bind_inv H. inversion H; subst t; clear H.
  cbn [out_lor850 out_trans_tmp out_faulty_pickup out_prechargement
         out_merged_data out_trans_fic out_faux_bl].
  repeat match goal with
    | S : select _ ?names = Ok ?f |- _ =>
        let C := fresh "C" in let L := fresh "L" in
        pose proof (select_rows_length _ _ S) as L;
        destruct (select_shape _ _ S) as [C _]; clear S;
        destruct f as [? ?]; simpl in C, L; subst
    end.
  repeat match goal with
    | S : prechargement rt _ = Ok _ |- _ =>
        rewrite prechargement_rows in S; inversion S; subst; clear S
    | S : sort_by_ticket_date rt _ = Ok _ |- _ =>
        let st := fresh "stamps" in let E := fresh "E" in
        destruct (sort_by_ticket_date_rows _ _ S) as (st & E & ->);
        pose proof (mapM_length _ _ E); clear S
    | S : faulty_pickup _ = Ok _ |- _ =>
        rewrite faulty_pickup_rows in S; inversion S; subst; clear S
    | S : trans_tmp _ = Ok _ |- _ =>
        rewrite trans_tmp_rows in S; inversion S; subst; clear S
    | S : data_jde_filtered _ = Ok _ |- _ =>
        rewrite data_jde_filtered_rows in S; inversion S; subst; clear S
    | S : merged_data _ _ = Ok _ |- _ =>
        rewrite merged_data_rows in S; inversion S; subst; clear S
    | S : trans_fic rt _ = Ok _ |- _ =>
        rewrite trans_fic_rows in S; inversion S; subst; clear S
    end.
  match goal with
  | S : set_valid_bl rt (Frame lor850_keep ?rs) = Ok _ |- _ =>
      let F := fresh "F" in let V := fresh "V" in
      destruct (set_valid_bl_rows rt rs) as (valid & F & V);
      rewrite V in S; inversion S; subst; clear S V;
      apply Forall2_length in F
  end.
  match goal with
  | S : faux_bl rt _ = Ok _ |- _ =>
      rewrite faux_bl_rows in S; inversion S; subst; clear S
  end.
  cbn [rows] in *.
  match goal with
  | |- context [sort_values rt ?k ?l] =>
      pose proof (Permutation_length (sort_permutes laws k l)) as PL;
      rewrite zip_with_length in PL
        by (unfold column_at in *; rewrite length_map in *; assumption)
  end.
  assert (ZL : forall rs (valid : list bool),
             List.length rs = List.length valid ->
             List.length (zip_with (fun b r => r ++ [Boolean b]) valid rs)
             = List.length rs)
    by (intros; apply zip_with_length; auto).
  match goal with
  | L : _ = List.length (rows lor518) |- _ => rewrite <- L
  end.
  match goal with
  | L : _ = List.length (rows lor850_raw) |- _ => rewrite <- L
  end.
  rewrite ZL by assumption.
  split; [reflexivity|].
  split.
  { rewrite <- PL. apply filter_exclusive_length.
    intros r Hr. apply andb_true_iff in Hr. destruct Hr as [Hr _].
    rewrite Hr. reflexivity. }
  split; [apply filter_length_le|].
  split.
  { rewrite <- PL. apply joined_rows_length.
    intros l. destruct (filter (fun j => key_eq _ _) _); discriminate. }
  split; [apply filter_length_le|].
  etransitivity; [apply filter_length_le|].
  rewrite ZL by assumption. apply Nat.le_refl.
Qed.

(** X14 on the sample run. *)
Lemma process_counts_witness :
  exists t : tables,
    process ascii_runtime sample_lor518 sample_lor850 sample_jde = Ok t /\
    List.length (rows (out_lor850 t)) = 2%nat /\
    (List.length (rows (out_trans_tmp t))
     + List.length (rows (out_faulty_pickup t)) <= 2)%nat /\
    (List.length (rows (out_prechargement t)) <= 2)%nat /\
    (2 <= List.length (rows (out_merged_data t)))%nat /\
    (List.length (rows (out_trans_fic t)) <= 2)%nat /\
    (List.length (rows (out_faux_bl t)) <= 2)%nat.
Proof.
  eexists. split; [vm_compute; reflexivity|].
  apply (process_counts ascii_runtime_sort_laws
           sample_lor518 sample_lor850 sample_jde).
  - distinct_labels.
  - distinct_labels.
  - distinct_labels.
  - vm_compute. reflexivity.
Defined.

(** ** The other two rename loops *)

(** X15: the rename loop of LOR850 (lines 85-93) renames a label to
    "customer" when its trimmed, lower-cased form holds "unnamed: 5" as a
    part, even if it also holds "unnamed: 8"; otherwise to "produit" when
    that form holds "unnamed: 8"; otherwise the label is only trimmed and
    lower-cased, which is all the JDE loop (lines 96-100) does.  Both keep
    the order of the labels and every row. *)
Theorem normalize_lor850_jde_spec (rt : runtime) (df : frame) :
  rows (normalize_lor850 rt df) = rows df /\
  columns (normalize_lor850 rt df)
    = List.map (new_col_lor850 rt) (columns df) /\
  rows (normalize_jde rt df) = rows df /\
  columns (normalize_jde rt df)
    = List.map (fun col => str_lower rt (str_strip rt col)) (columns df) /\
  forall col : pystr,
    let name := str_lower rt (str_strip rt col) in
    let holds := fun p => exists pre post, name = pre ++ lit p ++ post in
    (holds "unnamed: 5"%string -> new_col_lor850 rt col = lit "customer") /\
    (~ holds "unnamed: 5"%string -> holds "unnamed: 8"%string ->
     new_col_lor850 rt col = lit "produit") /\
    (~ holds "unnamed: 5"%string -> ~ holds "unnamed: 8"%string ->
     new_col_lor850 rt col = name).
Proof.
  rewrite normalize_lor850_frame, normalize_jde_frame. cbn [rows columns].
  repeat (split; [reflexivity|]).
  intros col. rewrite new_col_lor850_cases. cbv zeta.
  set (name := str_lower rt (str_strip rt col)).
  destruct (str_in (lit "unnamed: 5") name) eqn:E5;
    [apply str_in_spec in E5
    | assert (N5 : ~ exists pre post, name = pre ++ lit "unnamed: 5" ++ post)
        by (rewrite <- str_in_spec; congruence)];
    (destruct (str_in (lit "unnamed: 8") name) eqn:E8;
     [apply str_in_spec in E8
     | assert (N8 : ~ exists pre post, name = pre ++ lit "unnamed: 8" ++ post)
         by (rewrite <- str_in_spec; congruence)]);
    repeat split; intros; try reflexivity; tauto.
Qed.

Lemma new_columns_lookup (body : pystr -> pystr) (cols : list pystr)
    (c : pystr) :
  dict_get (new_columns body cols) c
  = if existsb (pystr_eqb c) cols then Some (body c) else None.
Proof.
  unfold new_columns.
  change (@None pystr) with (dict_get [] c). generalize (@nil (pystr * pystr)).
  induction cols as [|x cols IH]; intros d; simpl; [reflexivity|].
  rewrite IH, dict_get_set.
  destruct (existsb (pystr_eqb c) cols); [rewrite orb_true_r; reflexivity|].
  rewrite orb_false_r.
  destruct (pystr_eqb x c) eqn:E.
  - apply pystr_eqb_eq in E. subst x. rewrite pystr_eqb_refl. reflexivity.
  - destruct (pystr_eqb c x) eqn:E'; [|reflexivity].
    apply pystr_eqb_eq in E'. subst x. rewrite pystr_eqb_refl in E.
    discriminate.
Qed.

Lemma dict_set_keys_in (d : dict) (k v x : pystr) :
  In x (List.map fst (dict_set d k v)) -> x = k \/ In x (List.map fst d).
Proof.
  induction d as [|[k0 v0] d IH]; simpl.
  - intros [<- | []]. left. reflexivity.
  - destruct (pystr_eqb k0 k); simpl; [tauto|].
    intros [<- | H]; [tauto|]. destruct (IH H); tauto.
Qed.

Lemma dict_set_keys (d : dict) (k v : pystr) :
  NoDup (List.map fst d) -> NoDup (List.map fst (dict_set d k v)).
Proof.
  induction d as [|[k0 v0] d IH]; simpl; intros nd.
  - constructor; [intros [] | constructor].
  - inversion nd as [|? ? notin nd']; subst.
    destruct (pystr_eqb k0 k) eqn:E; simpl.
    + constructor; assumption.
    + constructor; [|apply IH; exact nd'].
      intros H. apply dict_set_keys_in in H. destruct H as [-> | H].
      * rewrite pystr_eqb_refl in E. discriminate.
      * exact (notin H).
Qed.

(** X16: the loop that fills [new_columns] and the rename that follows
    (lines 74-82, 85-93, 96-100): after the loop the dict has one entry per
    distinct label of the table and maps each label to the value the loop
    body computes for it, also when a label occurs twice; a text that is
    no label of the table is no key; so renaming through the dict gives
    every column the computed name of its own label and keeps the number
    of columns. *)
Theorem rename_by_loop (body : pystr -> pystr) (df : frame) :
  (forall c, In c (columns df) ->
             dict_get (new_columns body (columns df)) c = Some (body c)) /\
  (forall c, ~ In c (columns df) ->
             dict_get (new_columns body (columns df)) c = None) /\
  NoDup (List.map fst (new_columns body (columns df))) /\
  rename df (new_columns body (columns df))
    = Frame (List.map body (columns df)) (rows df) /\
  List.length (columns (rename df (new_columns body (columns df))))
    = List.length (columns df).
Proof.
  assert (member : forall c cols,
             existsb (pystr_eqb c) cols = true <-> In c cols).
  { intros c cols. rewrite existsb_exists. split.
    - intros (x & Hx & E). apply pystr_eqb_eq in E. subst. exact Hx.
    - intros H. exists c. split; [exact H | apply pystr_eqb_refl]. }
  split; [| split; [| split; [| split]]].
  - intros c H. rewrite new_columns_lookup.
    apply member in H. rewrite H. reflexivity.
  - intros c H. rewrite new_columns_lookup.
    destruct (existsb (pystr_eqb c) (columns df)) eqn:E; [|reflexivity].
    apply member in E. contradiction.
  - unfold new_columns.
    assert (G : forall cols d, NoDup (List.map fst d) ->
              NoDup (List.map fst
                       (fold_left (fun d col => dict_set d col (body col))
                          cols d))).
    { induction cols as [|x cols IH]; intros d nd; simpl; [exact nd|].
      apply IH. apply dict_set_keys. exact nd. }
    apply G. constructor.
  - apply rename_new_columns.
  - rewrite rename_new_columns. cbn [columns]. apply length_map.
Qed.
